(** * UNM-Server: source ranking and two-tier cache

    A shallow embedding of
    - [SourceRankingService] (the statistics registry and the ranking engine),
    - [CacheService] (the in-process LRU tier in front of an optional Redis tier),
    - [SongCacheService] (the key-naming facade over [CacheService]),
    and the properties of the specification that concern them.

    Conventions.
    - A JavaScript [number] that counts something (requests, hits, array
      indices, milliseconds, seconds) is an exact integer ([N] or [Z]); the
      statistics that the code divides and weighs (success rate, average
      latency, quality score, composite score) are binary64 floats, with the
      kernel's IEEE 754 operations.
    - [Map<string, SourceStats>] is a [gmap string SourceStats].
    - [Date.now()] and the LRU clock are explicit arguments.
    - The Redis server is outside the process: what it answers is an argument
      of the operation that asks, what is sent to it is part of the result. *)

From Stdlib Require Import ZArith NArith List String Ascii Floats Uint63 Lia Permutation.
From Stdlib Require Import DecimalString.
From stdpp Require Import gmap strings list.

(* A decimal literal stands for the nearest binary64 value, as in JavaScript. *)
Set Warnings "-inexact-float".
Local Open Scope Z_scope.

(** ** JavaScript built-ins used by the services *)

Module Js.

(** The value handed back by a sort comparator: an integer (a difference of
    array indices, or a literal) or a double (a difference of scores). *)
Inductive number :=
| Int (z : Z)
| Dbl (f : float).

(** [v < 0], the only test [Array.prototype.sort] needs to place an element
    before another one ([NaN < 0] is false). *)
Definition negative (v : number) : bool :=
  match v with
  | Int z => z <? 0
  | Dbl f => (f <? 0)%float
  end.

(** An integer count as a double (exact below 2^53). *)
Definition of_count (n : N) : float :=
  PrimFloat.of_uint63 (Uint63.of_Z (Z.of_N n)).

(** [Math.max(0, x)]: [NaN] is contagious, and [+0] wins over [-0]. *)
Definition Math_max0 (x : float) : float :=
  if PrimFloat.is_nan x then PrimFloat.nan
  else if (0 <? x)%float then x else 0%float.

(** [xs.indexOf(x)]: position of the first element equal to [x], else [-1]. *)
Fixpoint indexOf_from (xs : list string) (x : string) (i : Z) : Z :=
  match xs with
  | [] => -1
  | y :: ys => if String.eqb y x then i else indexOf_from ys x (i + 1)
  end.

Definition indexOf (xs : list string) (x : string) : Z := indexOf_from xs x 0.

(** [Array.prototype.sort(cmp)]. ECMAScript asks for a stable sort that
    places [x] before [y] when [cmp(x, y) < 0]; the elements are inserted
    one by one, from left to right, each before the first element it is
    smaller than. *)
Fixpoint insertBy {A} (cmp : A -> A -> number) (x : A) (sorted : list A) : list A :=
  match sorted with
  | [] => [x]
  | y :: ys => if negative (cmp x y) then x :: y :: ys else y :: insertBy cmp x ys
  end.

Definition sort {A} (cmp : A -> A -> number) (xs : list A) : list A :=
  fold_left (fun acc x => insertBy cmp x acc) xs [].

(** [s.startsWith(p)] *)
Definition startsWith (s p : string) : bool := String.prefix p s.

End Js.

(** ** SourceRankingService *)

Module Ranking.
Import Js.

Record SourceStats := mkStats {
  availableCount : N;
  totalRequests : N;
  avgResponseTime : float;
  lastSuccess : option Z;
  lastFailure : option Z;
  successRate : float;
  qualityScore : float
}.

Abbreviation Registry := (gmap string SourceStats).

Definition DEFAULT_QUALITY_SCORES : list (string * float) :=
  [ ("qq", 85); ("kugou", 80); ("kuwo", 75); ("migu", 90); ("joox", 70);
    ("youtube", 88); ("ytdlp", 95); ("bilibili", 65); ("pyncmd", 60) ]%float.

(** [DEFAULT_QUALITY_SCORES[source]] *)
Fixpoint defaultQuality (table : list (string * float)) (source : string) : option float :=
  match table with
  | [] => None
  | (k, q) :: rest => if String.eqb k source then Some q else defaultQuality rest source
  end.

(** The zeroed entry, with the given quality score. *)
Definition zeroStats (q : float) : SourceStats :=
  {| availableCount := 0; totalRequests := 0; avgResponseTime := 0;
     lastSuccess := None; lastFailure := None; successRate := 0;
     qualityScore := q |}.

(** [loadStatsFromStorage]: the saved entries overwrite the seeded ones.
    On the server there is no [localStorage], and [saved] is empty. *)
Definition loadStatsFromStorage (saved : list (string * SourceStats)) (reg : Registry) : Registry :=
  fold_left (fun r kv => <[fst kv := snd kv]> r) saved reg.

Definition initSourceStats (saved : list (string * SourceStats)) (reg : Registry) : Registry :=
  loadStatsFromStorage saved
    (fold_left (fun r kq => <[fst kq := zeroStats (snd kq)]> r) DEFAULT_QUALITY_SCORES reg).

(** The registry of a service that has just been constructed on the server. *)
Definition newService : Registry := initSourceStats [] ∅.

(** [recordSourceResult(source, success, responseTime)] at time [now].
    Writing the table to [localStorage] does not change the registry. *)
Definition recordSourceResult (reg : Registry) (now : Z)
    (source : string) (success : bool) (responseTime : float) : Registry :=
  let stats := match reg !! source with
               | Some s => s
               | None => zeroStats 70
               end in
  let total := (totalRequests stats + 1)%N in
  let stats :=
    if success then
      let available := (availableCount stats + 1)%N in
      {| availableCount := available;
         totalRequests := total;
         avgResponseTime :=
           ((avgResponseTime stats * of_count (available - 1) + responseTime)
              / of_count available)%float;
         lastSuccess := Some now;
         lastFailure := lastFailure stats;
         successRate := successRate stats;
         qualityScore := qualityScore stats |}
    else
      {| availableCount := availableCount stats;
         totalRequests := total;
         avgResponseTime := avgResponseTime stats;
         lastSuccess := lastSuccess stats;
         lastFailure := Some now;
         successRate := successRate stats;
         qualityScore := qualityScore stats |} in
  let stats :=
    {| availableCount := availableCount stats;
       totalRequests := totalRequests stats;
       avgResponseTime := avgResponseTime stats;
       lastSuccess := lastSuccess stats;
       lastFailure := lastFailure stats;
       successRate := (of_count (availableCount stats) / of_count (totalRequests stats))%float;
       qualityScore := qualityScore stats |} in
  <[source := stats]> reg.

(** The composite score of the comparator. *)
Definition score (s : SourceStats) : float :=
  (successRate s * 0.4
   + qualityScore s / 100 * 0.4
   + Math_max0 ((1000 - avgResponseTime s) / 1000) * 0.2)%float.

Section WithConfig.
(** [config.DEFAULT_SOURCES] *)
Variable DEFAULT_SOURCES : list string.

(** The callback of [filter] in [rankSources]. *)
Definition reliable (reg : Registry) (source : string) : bool :=
  match reg !! source with
  | Some stats =>
      if (5 <? totalRequests stats)%N && (successRate stats <? 0.2)%float
      then false else true
  | None => true
  end.

(** The callback of [sort] in [rankSources]. *)
Definition compareSources (reg : Registry) (a b : string) : number :=
  match reg !! a, reg !! b with
  | Some statsA, Some statsB => Dbl (score statsB - score statsA)%float
  | _, _ =>
      let defaultOrderA := indexOf DEFAULT_SOURCES a in
      let defaultOrderB := indexOf DEFAULT_SOURCES b in
      if negb (defaultOrderA =? -1) && negb (defaultOrderB =? -1)
      then Int (defaultOrderA - defaultOrderB)
      else if negb (defaultOrderA =? -1) then Int (-1)
      else if negb (defaultOrderB =? -1) then Int 1
      else Int 0
  end.

Definition rankSources (reg : Registry) (sources : list string) : list string :=
  let sources := match sources with
                 | [] => DEFAULT_SOURCES
                 | _ => sources
                 end in
  sort (compareSources reg) (List.filter (reliable reg) sources).

(** [None] is JavaScript's [null]. *)
Definition getBestSource (reg : Registry) (sources : list string) : option string :=
  match rankSources reg sources with
  | [] => None
  | best :: _ => Some best
  end.

Definition adjustSourcesForNetwork (reg : Registry)
    (sources : list string) (networkType : string) : list string :=
  let ranked := rankSources reg sources in
  if String.eqb networkType "wifi" then ranked
  else if String.eqb networkType "4g" then
    let scored :=
      List.map (fun source =>
        match reg !! source with
        | Some stats =>
            if (90 <? qualityScore stats)%float && (500 <? avgResponseTime stats)%float
            then (source, (qualityScore stats * 0.8)%float)
            else (source, qualityScore stats)
        | None => (source, 70%float)
        end) ranked in
    List.map fst
      (sort (fun a b => Dbl (snd b - snd a)%float) scored)
  else if String.eqb networkType "3g" || String.eqb networkType "2g" then
    List.filter (fun source =>
      match reg !! source with
      | Some stats =>
          negb ((85 <? qualityScore stats)%float && (300 <? avgResponseTime stats)%float)
      | None => true
      end) ranked
  else ranked.

End WithConfig.

(** [getSourceStats(source?)]: one entry, or the whole table. *)
Definition getSourceStats (reg : Registry) (source : option string)
    : option SourceStats + Registry :=
  match source with
  | Some s => if String.eqb s "" then inr reg else inl (reg !! s)
  | None => inr reg
  end.

(** [resetSourceStats(source?)] *)
Definition resetSourceStats (reg : Registry) (source : option string) : Registry :=
  match source with
  | Some s =>
      if String.eqb s "" then initSourceStats [] reg
      else match reg !! s with
           | Some _ =>
               <[s := zeroStats (match defaultQuality DEFAULT_QUALITY_SCORES s with
                                 | Some q => q
                                 | None => 70%float
                                 end)]> reg
           | None => reg
           end
  | None => initSourceStats [] reg
  end.

(** [config.DEFAULT_SOURCES] when the environment does not set it. *)
Definition builtin_DEFAULT_SOURCES : list string :=
  ["kugou"; "kuwo"; "migu"; "ytdlp"; "bilibili"].

End Ranking.

(** ** The [lru-cache] package, as [CacheService] configures it

    [allowStale: false], [updateAgeOnGet: true]; the capacity and the default
    time to live are arguments. The entries are kept most recently used
    first; times and times to live are in milliseconds. *)

Module LRUCache.

Section WithValue.
Variable V : Type.

Record Entry := mkEntry {
  key : string;
  value : V;
  ttl : Z;      (* 0: the entry never expires *)
  start : Z     (* the clock when the entry was written or last read *)
}.

Definition isStale (now : Z) (e : Entry) : bool :=
  negb (ttl e =? 0) && negb (start e =? 0) && (ttl e <? now - start e).

Fixpoint find (k : string) (es : list Entry) : option Entry :=
  match es with
  | [] => None
  | e :: rest => if String.eqb (key e) k then Some e else find k rest
  end.

Definition remove (k : string) (es : list Entry) : list Entry :=
  List.filter (fun e => negb (String.eqb (key e) k)) es.

Definition size (es : list Entry) : N := N.of_nat (length es).

(** [cache.get(k)]: [None] is [undefined]. A stale entry is dropped; a
    live one becomes the most recently used and its age restarts. *)
Definition get (now : Z) (k : string) (es : list Entry) : option V * list Entry :=
  match find k es with
  | None => (None, es)
  | Some e =>
      if isStale now e then (None, remove k es)
      else (Some (value e),
            mkEntry k (value e) (ttl e) (if ttl e =? 0 then 0 else now) :: remove k es)
  end.

(** [cache.set(k, v, { ttl })]: an update moves the entry to the front; an
    addition to a full cache first evicts the least recently used entry. *)
Definition set (max : N) (now : Z) (k : string) (v : V) (ttl : Z)
    (es : list Entry) : list Entry :=
  let e := mkEntry k v ttl (if ttl =? 0 then 0 else now) in
  match find k es with
  | Some _ => e :: remove k es
  | None => e :: (if (size es =? max)%N then removelast es else es)
  end.

(** [cache.delete(k)] *)
Definition delete (k : string) (es : list Entry) : list Entry := remove k es.

(** [cache.keys()]: the keys of the entries that are not stale, most
    recently used first. *)
Definition keys (now : Z) (es : list Entry) : list string :=
  List.map key (List.filter (fun e => negb (isStale now e)) es).

End WithValue.

Arguments mkEntry {V}.
Arguments key {V}.
Arguments value {V}.
Arguments ttl {V}.
Arguments start {V}.
Arguments isStale {V}.
Arguments find {V}.
Arguments remove {V}.
Arguments size {V}.
Arguments get {V}.
Arguments set {V}.
Arguments delete {V}.
Arguments keys {V}.

End LRUCache.

(** ** [Number.prototype.toFixed(2)] *)

Module Fixed.

(** The decimal digits of [n], at least three of them, with a point before
    the last two. *)
Definition withTwoDecimals (n : N) : string :=
  let digits := NilZero.string_of_uint (N.to_uint n) in
  let digits :=
    match String.length digits with
    | 1%nat => ("00" +:+ digits)%string
    | 2%nat => ("0" +:+ digits)%string
    | _ => digits
    end in
  let k := (String.length digits - 2)%nat in
  (String.substring 0 k digits +:+ "." +:+ String.substring k 2 digits)%string.

(** [x.toFixed(2)]: the integer [n] nearest to [100 * x], the larger one on
    a tie, printed with two decimals. ([x >= 1e21], which JavaScript prints
    in exponent notation, is printed in fixed notation here.) *)
Definition toFixed2 (x : float) : string :=
  match Prim2SF x with
  | S754_nan => "NaN"
  | S754_infinity s => if s then "-Infinity" else "Infinity"
  | S754_zero _ => "0.00"
  | S754_finite s m e =>
      let n := if 0 <=? e then Z.pos m * 2 ^ e * 100
               else (2 * (Z.pos m * 100) + 2 ^ (- e)) / (2 * 2 ^ (- e)) in
      ((if s then "-" else "") +:+ withTwoDecimals (Z.to_N n))%string
  end.

End Fixed.

(** ** CacheService *)

Module CacheService.
Import Js.

Inductive CacheLevel := MEMORY | REDIS.

Inductive CachePriority := LOW | NORMAL | HIGH.

(** [CacheOptions], every property present. *)
Record CacheOptions := mkOptions {
  ttl : Z;                     (* seconds *)
  level : CacheLevel;
  priority : CachePriority
}.

(** [Partial<CacheOptions>]: [None] is a property that is not there. *)
Record PartialCacheOptions := mkPartial {
  ttl_given : option Z;
  level_given : option CacheLevel;
  priority_given : option CachePriority
}.

(** [this.TTL[priority]], in seconds. *)
Definition TTL (p : CachePriority) : Z :=
  match p with
  | LOW => 15 * 60
  | NORMAL => 60 * 60
  | HIGH => 6 * 60 * 60
  end.

(** [this.stats] *)
Record Counters := mkCounters {
  hits : N;
  misses : N;
  memoryCacheSize : N;
  redisCacheSize : N
}.

(** What the service sends to the Redis server. *)
Inductive RedisCommand :=
| GET (key : string)
| SET (key : string) (serialized : string) (EX : Z)
| DEL (keys : list string)
| KEYS (pattern : string).

(** How an awaited call to the Redis client ends. *)
Inductive Settled (A : Type) :=
| Resolved (a : A)
| Rejected.
Arguments Resolved {A}.
Arguments Rejected {A}.

(** The constructor's [max] and [ttl] (milliseconds) of the memory cache. *)
Definition MEMORY_MAX : N := 1000.
Definition MEMORY_TTL : Z := 300 * 1000.

Section WithPayload.
(** What callers cache, apart from [null]. *)
Variable Payload : Type.

Inductive Value :=
| Null
| Data (d : Payload).

(** [JSON.stringify] and [JSON.parse]; [None] is a thrown exception. *)
Variable JSON_stringify : Value -> option string.
Variable JSON_parse : string -> option Value.

Record State := mkState {
  memoryCache : list (LRUCache.Entry Value);
  redisClient : bool;          (* [this.redisClient] is not [null] *)
  redisAvailable : bool;
  stats : Counters
}.

Definition withMemory (cs : State) (m : list (LRUCache.Entry Value)) : State :=
  mkState m (redisClient cs) (redisAvailable cs) (stats cs).

Definition countHit (cs : State) : State :=
  mkState (memoryCache cs) (redisClient cs) (redisAvailable cs)
    (mkCounters (hits (stats cs) + 1) (misses (stats cs))
       (memoryCacheSize (stats cs)) (redisCacheSize (stats cs))).

Definition countMiss (cs : State) : State :=
  mkState (memoryCache cs) (redisClient cs) (redisAvailable cs)
    (mkCounters (hits (stats cs)) (misses (stats cs) + 1)
       (memoryCacheSize (stats cs)) (redisCacheSize (stats cs))).

(** A service that has just been constructed, before Redis connects. *)
Definition newService (client : bool) : State :=
  mkState [] client false (mkCounters 0 0 0 0).

(** [get(key)] at time [now]. [reply] is what [redisClient.get(key)]
    settles to when the memory cache has no live entry and Redis is
    asked, at time [later]. The result is the returned value, the state
    afterwards and the commands sent to Redis. *)
Definition get (cs : State) (now : Z) (key : string)
    (reply : Settled (option string)) (later : Z)
    : Value * State * list RedisCommand :=
  let (memoryResult, memory) := LRUCache.get now key (memoryCache cs) in
  let cs := withMemory cs memory in
  match memoryResult with
  | Some v => (v, countHit cs, [])
  | None =>
      if redisAvailable cs && redisClient cs then
        match reply with
        | Resolved (Some redisResult) =>
            if String.eqb redisResult "" then (Null, countMiss cs, [GET key])
            else
              match JSON_parse redisResult with
              | Some parsed =>
                  (parsed,
                   countHit (withMemory cs
                     (LRUCache.set MEMORY_MAX later key parsed MEMORY_TTL (memoryCache cs))),
                   [GET key])
              | None => (Null, countMiss cs, [GET key; DEL [key]])
              end
        | Resolved None => (Null, countMiss cs, [GET key])
        | Rejected => (Null, countMiss cs, [GET key])
        end
      else (Null, countMiss cs, [])
  end.

Definition defaultOptions : CacheOptions := mkOptions 300 MEMORY NORMAL.

(** [{ ...defaultOptions, ...options }] *)
Definition spread (d : CacheOptions) (options : option PartialCacheOptions) : CacheOptions :=
  match options with
  | None => d
  | Some o =>
      mkOptions (match ttl_given o with Some t => t | None => ttl d end)
                (match level_given o with Some l => l | None => level d end)
                (match priority_given o with Some p => p | None => priority d end)
  end.

(** [!options?.ttl]: no options, no [ttl], or a [ttl] of [0]. *)
Definition noTtl (options : option PartialCacheOptions) : bool :=
  match options with
  | Some o => match ttl_given o with
              | Some t => t =? 0
              | None => true
              end
  | None => true
  end.

(** [set(key, value, options)] at time [now]. [opts.priority] is one of
    ['low'], ['normal'], ['high'] and always truthy. *)
Definition set (cs : State) (now : Z) (key : string) (value : Value)
    (options : option PartialCacheOptions) : State * list RedisCommand :=
  let opts := spread defaultOptions options in
  let opts := if noTtl options
              then mkOptions (TTL (priority opts)) (level opts) (priority opts)
              else opts in
  let cs := withMemory cs
              (LRUCache.set MEMORY_MAX now key value (ttl opts * 1000) (memoryCache cs)) in
  match level opts with
  | REDIS =>
      if redisAvailable cs && redisClient cs then
        match JSON_stringify value with
        | Some serialized => (cs, [SET key serialized (ttl opts)])
        | None => (cs, [])
        end
      else (cs, [])
  | MEMORY => (cs, [])
  end.

(** [has(key)] *)
Definition has (cs : State) (now : Z) (key : string)
    (reply : Settled (option string)) (later : Z)
    : bool * State * list RedisCommand :=
  let '(v, cs, sent) := get cs now key reply later in
  (match v with Null => false | Data _ => true end, cs, sent).

(** [delete(key)] *)
Definition delete (cs : State) (key : string) : State * list RedisCommand :=
  let cs := withMemory cs (LRUCache.delete key (memoryCache cs)) in
  if redisAvailable cs && redisClient cs then (cs, [DEL [key]]) else (cs, []).

(** [deleteByPrefix(prefix)] at time [now]; [reply] is what
    [redisClient.keys(prefix + '*')] settles to when Redis is asked. *)
Definition deleteByPrefix (cs : State) (now : Z) (prefix : string)
    (reply : Settled (list string)) : State * list RedisCommand :=
  let memory :=
    fold_left (fun m key => if startsWith key prefix then LRUCache.delete key m else m)
      (LRUCache.keys now (memoryCache cs)) (memoryCache cs) in
  let cs := withMemory cs memory in
  if redisAvailable cs && redisClient cs then
    match reply with
    | Resolved (k :: ks) => (cs, [KEYS (prefix +:+ "*")%string; DEL (k :: ks)])
    | Resolved [] => (cs, [KEYS (prefix +:+ "*")%string])
    | Rejected => (cs, [KEYS (prefix +:+ "*")%string])
    end
  else (cs, []).

(** [CacheStats] *)
Record CacheStats := mkCacheStats {
  stats_hits : N;
  stats_misses : N;
  stats_size : N;
  memoryItems : N;
  memorySizeBytes : N;
  hitRate : string
}.

(** [getStats()]; [heapUsed] is [process.memoryUsage().heapUsed]. *)
Definition getStats (cs : State) (heapUsed : N) : CacheStats :=
  let total := (hits (stats cs) + misses (stats cs))%N in
  let hitRate :=
    if (0 <? total)%N
    then (Fixed.toFixed2 (of_count (hits (stats cs)) / of_count total * 100)%float +:+ "%")%string
    else "0%"%string in
  mkCacheStats (hits (stats cs)) (misses (stats cs))
    (LRUCache.size (memoryCache cs)) (LRUCache.size (memoryCache cs))
    heapUsed hitRate.

(** [logStats()], apart from what it prints. *)
Definition logStats (cs : State) : State :=
  mkState (memoryCache cs) (redisClient cs) (redisAvailable cs)
    (mkCounters 0 0 (memoryCacheSize (stats cs)) (redisCacheSize (stats cs))).

(** [resetStats()] *)
Definition resetStats (cs : State) : State :=
  mkState (memoryCache cs) (redisClient cs) (redisAvailable cs) (mkCounters 0 0 0 0).

End WithPayload.

Arguments Null {Payload}.
Arguments Data {Payload}.
Arguments mkState {Payload}.
Arguments memoryCache {Payload}.
Arguments redisClient {Payload}.
Arguments redisAvailable {Payload}.
Arguments stats {Payload}.
Arguments withMemory {Payload}.
Arguments countHit {Payload}.
Arguments countMiss {Payload}.
Arguments newService {Payload}.
Arguments get {Payload}.
Arguments set {Payload}.
Arguments has {Payload}.
Arguments delete {Payload}.
Arguments deleteByPrefix {Payload}.
Arguments getStats {Payload}.
Arguments logStats {Payload}.
Arguments resetStats {Payload}.

End CacheService.

(** ** SongCacheService *)

Module SongCacheService.
Import CacheService.

Definition SONG_PREFIX : string := "song:".
Definition SOURCE_PREFIX : string := "source:".

(** [SongCacheOptions], every property present. *)
Record SongCacheOptions := mkSongOptions {
  duration : Z;
  useRedis : bool;
  priority : CachePriority
}.

(** [Partial<SongCacheOptions>] *)
Record PartialSongCacheOptions := mkPartialSong {
  duration_given : option Z;
  useRedis_given : option bool;
  priority_given : option CachePriority
}.

Definition defaultOptions : SongCacheOptions := mkSongOptions 86400 true NORMAL.

(** [{ ...this.defaultOptions, ...options }] *)
Definition spread (d : SongCacheOptions) (options : option PartialSongCacheOptions)
    : SongCacheOptions :=
  match options with
  | None => d
  | Some o =>
      mkSongOptions
        (match duration_given o with Some t => t | None => duration d end)
        (match useRedis_given o with Some u => u | None => useRedis d end)
        (match priority_given o with Some p => p | None => priority d end)
  end.

(** [getSongKey(id, source?)]: an empty [source] is falsy. *)
Definition getSongKey (id : string) (source : option string) : string :=
  match source with
  | Some s =>
      if String.eqb s "" then (SONG_PREFIX +:+ id)%string
      else (SONG_PREFIX +:+ id +:+ ":" +:+ s)%string
  | None => (SONG_PREFIX +:+ id)%string
  end.

Definition getSourceKey (id : string) : string := (SOURCE_PREFIX +:+ id)%string.

Section WithPayload.
(** [SongInfo] and lists of sources, as far as the cache is concerned. *)
Variable Payload : Type.
Variable JSON_stringify : Value Payload -> option string.
Variable JSON_parse : string -> option (Value Payload).

(** The options that the three [cache...] methods hand to [cacheService.set]. *)
Definition cacheOptions (ttl : Z) (opts : SongCacheOptions) (p : CachePriority)
    : option PartialCacheOptions :=
  Some (mkPartial (Some ttl)
                  (Some (if useRedis opts then REDIS else MEMORY))
                  (Some p)).

Definition cacheSongInfo (cs : State Payload) (now : Z) (id : string) (data : Value Payload)
    (options : option PartialSongCacheOptions) : State Payload * list RedisCommand :=
  let opts := spread defaultOptions options in
  set JSON_stringify cs now (getSongKey id None) data
    (cacheOptions (duration opts) opts (priority opts)).

Definition cacheSongSourceInfo (cs : State Payload) (now : Z) (id source : string)
    (data : Value Payload) (options : option PartialSongCacheOptions)
    : State Payload * list RedisCommand :=
  let opts := spread defaultOptions options in
  set JSON_stringify cs now (getSongKey id (Some source)) data
    (cacheOptions (duration opts) opts (priority opts)).

Definition cacheSourceMatchResult (cs : State Payload) (now : Z) (id : string)
    (sources : Value Payload) (options : option PartialSongCacheOptions)
    : State Payload * list RedisCommand :=
  let opts := spread defaultOptions options in
  let sourceCacheTTL := Z.min (duration opts) 3600 in
  set JSON_stringify cs now (getSourceKey id) sources
    (cacheOptions sourceCacheTTL opts LOW).

Definition getSongInfo (cs : State Payload) (now : Z) (id : string)
    (reply : Settled (option string)) (later : Z) :=
  get JSON_parse cs now (getSongKey id None) reply later.

Definition getSongSourceInfo (cs : State Payload) (now : Z) (id source : string)
    (reply : Settled (option string)) (later : Z) :=
  get JSON_parse cs now (getSongKey id (Some source)) reply later.

Definition getSourceMatchResult (cs : State Payload) (now : Z) (id : string)
    (reply : Settled (option string)) (later : Z) :=
  get JSON_parse cs now (getSourceKey id) reply later.

Definition hasSongInfo (cs : State Payload) (now : Z) (id : string)
    (reply : Settled (option string)) (later : Z) :=
  has JSON_parse cs now (getSongKey id None) reply later.

Definition hasSongSourceInfo (cs : State Payload) (now : Z) (id source : string)
    (reply : Settled (option string)) (later : Z) :=
  has JSON_parse cs now (getSongKey id (Some source)) reply later.

(** [clearSongCache(id)] *)
Definition clearSongCache (cs : State Payload) (now : Z) (id : string)
    (reply : Settled (list string)) : State Payload * list RedisCommand :=
  let (cs, sent1) := deleteByPrefix cs now (getSongKey id None) reply in
  let (cs, sent2) := delete cs (getSourceKey id) in
  (cs, sent1 ++ sent2).

(** [clearSourceCache(source)] *)
Definition clearSourceCache (cs : State Payload) (now : Z) (source : string)
    (reply : Settled (list string)) : State Payload * list RedisCommand :=
  deleteByPrefix cs now (SONG_PREFIX +:+ ":" +:+ source)%string reply.

End WithPayload.

Arguments cacheSongInfo {Payload}.
Arguments cacheSongSourceInfo {Payload}.
Arguments cacheSourceMatchResult {Payload}.
Arguments getSongInfo {Payload}.
Arguments getSongSourceInfo {Payload}.
Arguments getSourceMatchResult {Payload}.
Arguments hasSongInfo {Payload}.
Arguments hasSongSourceInfo {Payload}.
Arguments clearSongCache {Payload}.
Arguments clearSourceCache {Payload}.

End SongCacheService.

(** ** Runs of the registry

    The vocabulary of the properties below: the entry a call starts from, a
    source nothing has been recorded for, and a sequence of calls. *)

Module Runs.
Import Js Ranking.

(** The entry that [recordSourceResult] starts from. *)
Definition entry (reg : Registry) (source : string) : SourceStats :=
  match reg !! source with
  | Some s => s
  | None => zeroStats 70
  end.

(** A source nothing has been recorded for: no entry, or a zeroed one. *)
Definition fresh (reg : Registry) (source : string) : Prop :=
  availableCount (entry reg source) = 0%N
  /\ totalRequests (entry reg source) = 0%N
  /\ avgResponseTime (entry reg source) = 0%float.

(** One call of [recordSourceResult], and a run of calls in order. *)
Record Call := mkCall {
  call_now : Z;
  call_source : string;
  call_success : bool;
  call_responseTime : float
}.

Definition record (reg : Registry) (c : Call) : Registry :=
  recordSourceResult reg (call_now c) (call_source c) (call_success c) (call_responseTime c).

Definition run (reg : Registry) (calls : list Call) : Registry :=
  fold_left record calls reg.

(** The number of calls made for [source]. *)
Definition callsFor (source : string) (calls : list Call) : N :=
  N.of_nat (length (List.filter (fun c => String.eqb (call_source c) source) calls)).

End Runs.

(** ** Hits and misses of the cache

    The vocabulary of the cache properties: the loop of [deleteByPrefix],
    and what it means for a [get] to hit in a tier. *)

Module CacheRuns.
Import CacheService.

(** The loop of [deleteByPrefix] over a list of keys. *)
Definition purge {V} (prefix : string) (ks : list string)
    (es : list (LRUCache.Entry V)) : list (LRUCache.Entry V) :=
  fold_left (fun m key => if Js.startsWith key prefix then LRUCache.delete key m else m) ks es.

(** The memory cache holds an entry for [key] that has not expired. *)
Definition localHit {Payload} (cs : State Payload) (now : Z) (key : string) : Prop :=
  exists e, LRUCache.find key (memoryCache cs) = Some e
            /\ LRUCache.isStale now e = false.

(** Redis is in use and answers with a string that parses. *)
Definition sharedHit {Payload} (JSON_parse : string -> option (Value Payload))
    (cs : State Payload) (reply : Settled (option string)) : Prop :=
  redisAvailable cs = true /\ redisClient cs = true
  /\ exists s v, reply = Resolved (Some s) /\ s <> ""%string /\ JSON_parse s = Some v.

End CacheRuns.

(** ** config.ts and the route handlers that call the services *)

Module Config.

(** [s.split(',')]: the fields between the commas, at least one. *)
Fixpoint split (s : string) : list string :=
  match s with
  | EmptyString => [EmptyString]
  | String c rest =>
      if Ascii.eqb c ","%char then EmptyString :: split rest
      else match split rest with
           | field :: fields => String c field :: fields
           | [] => [String c EmptyString]
           end
  end.

(** [fields.join(',')] *)
Fixpoint join (fields : list string) : string :=
  match fields with
  | [] => EmptyString
  | [field] => field
  | field :: rest => (field +:+ "," +:+ join rest)%string
  end.

(** The number of commas of [s]. *)
Fixpoint commas (s : string) : nat :=
  match s with
  | EmptyString => 0
  | String c rest => if Ascii.eqb c ","%char then S (commas rest) else commas rest
  end.

Section WithTrim.
(** [String.prototype.trim] *)
Variable trim : string -> string.

(** [parseArray(value, defaultValue)]; [None] is an environment variable
    that is not set. *)
Definition parseArray (value : option string) (defaultValue : list string) : list string :=
  match value with
  | None => defaultValue
  | Some v => if String.eqb v "" then defaultValue else List.map trim (split v)
  end.

(** [config.DEFAULT_SOURCES], from [process.env.DEFAULT_SOURCES]. *)
Definition DEFAULT_SOURCES (env : option string) : list string :=
  parseArray env Ranking.builtin_DEFAULT_SOURCES.

End WithTrim.

End Config.

Module Routes.
Import CacheService.

(** A query parameter that is there and not the empty string. *)
Definition given (param : option string) : option string :=
  match param with
  | Some s => if String.eqb s "" then None else Some s
  | None => None
  end.

(** [GET /api/sources/rank]: the ranked sources and the network of the
    answer. *)
Definition rankSourcesRoute (DEFAULT_SOURCES : list string) (reg : Ranking.Registry)
    (sourcesParam network : option string) : list string * string :=
  let network := match network with
                 | Some n => n
                 | None => "wifi"%string
                 end in
  let sources := match given sourcesParam with
                 | Some p => Config.split p
                 | None => DEFAULT_SOURCES
                 end in
  let rankedSources :=
    if String.eqb network "" then Ranking.rankSources DEFAULT_SOURCES reg sources
    else Ranking.adjustSourcesForNetwork DEFAULT_SOURCES reg sources network in
  (rankedSources, network).

(** The query of [DELETE /api/cache/clear]. *)
Record ClearQuery := mkClearQuery {
  prefix : option string;
  songId : option string;
  source : option string
}.

(** [DELETE /api/cache/clear] at time [now]: the state afterwards, the
    commands sent to Redis and the message of the answer. [reply] and
    [reply2] are what the first and the second [redisClient.keys] settle to;
    the second one is asked at time [now2]. *)
Definition clearCacheRoute {Payload} (cs : State Payload) (now : Z) (query : ClearQuery)
    (reply : Settled (list string)) (now2 : Z) (reply2 : Settled (list string))
    : State Payload * list RedisCommand * string :=
  match given (prefix query) with
  | Some p =>
      let (cs, sent) := deleteByPrefix cs now p reply in
      (cs, sent, ("已清除前缀为 " +:+ p +:+ " 的缓存")%string)
  | None =>
      match given (songId query) with
      | Some id =>
          let (cs, sent) := SongCacheService.clearSongCache cs now id reply in
          (cs, sent, ("已清除歌曲 " +:+ id +:+ " 的缓存")%string)
      | None =>
          match given (source query) with
          | Some s =>
              let (cs, sent) := SongCacheService.clearSourceCache cs now s reply in
              (cs, sent, ("已清除音源 " +:+ s +:+ " 的缓存")%string)
          | None =>
              let (cs, sent1) := deleteByPrefix cs now "song:" reply in
              let (cs, sent2) := deleteByPrefix cs now2 "source:" reply2 in
              (resetStats cs, sent1 ++ sent2, "已清除所有缓存"%string)
          end
      end
  end.

End Routes.

(** ** What the memory cache keeps

    One entry for a key, and no more entries than the capacity. *)

Module CacheInvariants.

Definition wellFormed {V} (es : list (LRUCache.Entry V)) : Prop :=
  List.NoDup (List.map LRUCache.key es)
  /\ (LRUCache.size es <= CacheService.MEMORY_MAX)%N.

End CacheInvariants.

(** * Properties *)

(** ** Sorting and searching *)

Section SortFacts.
Import Js.
Context {A : Type} (cmp : A -> A -> number).

Lemma insertBy_Permutation (x : A) (l : list A) :
  Permutation (insertBy cmp x l) (x :: l).
Proof.
  induction l as [|y ys IH]; simpl.
  - reflexivity.
  - destruct (negative (cmp x y)).
    + reflexivity.
    + rewrite IH. apply perm_swap.
Qed.

Lemma sort_from_Permutation (l acc : list A) :
  Permutation (fold_left (fun acc x => insertBy cmp x acc) l acc) (l ++ acc).
Proof.
  revert acc. induction l as [|x xs IH]; intros acc; simpl.
  - reflexivity.
  - rewrite IH, insertBy_Permutation. symmetry. apply Permutation_middle.
Qed.

Lemma sort_Permutation (l : list A) : Permutation (sort cmp l) l.
Proof.
  unfold sort. rewrite sort_from_Permutation. now rewrite app_nil_r.
Qed.

Lemma sort_In (l : list A) (x : A) : In x (sort cmp l) <-> In x l.
Proof.
  split; apply Permutation_in; [|symmetry]; apply sort_Permutation.
Qed.

Lemma sort_nil_iff (l : list A) : sort cmp l = [] <-> l = [].
Proof.
  split; intros H.
  - apply Permutation_nil. rewrite <- H. apply sort_Permutation.
  - now subst.
Qed.

Lemma sort_pair (x y : A) :
  sort cmp [x; y] = if negative (cmp y x) then [y; x] else [x; y].
Proof. reflexivity. Qed.

End SortFacts.

(** ** The statistics registry *)

Section RegistryFacts.
Import Js Ranking Runs.

Lemma recordSourceResult_lookup reg now source success rt :
  recordSourceResult reg now source success rt !! source
  = Some
      (let old := entry reg source in
       let available := if success then (availableCount old + 1)%N else availableCount old in
       {| availableCount := available;
          totalRequests := (totalRequests old + 1)%N;
          avgResponseTime :=
            if success
            then ((avgResponseTime old * of_count (available - 1) + rt) / of_count available)%float
            else avgResponseTime old;
          lastSuccess := if success then Some now else lastSuccess old;
          lastFailure := if success then lastFailure old else Some now;
          successRate := (of_count available / of_count (totalRequests old + 1))%float;
          qualityScore := qualityScore old |}).
Proof.
  unfold recordSourceResult, entry. rewrite lookup_insert_eq.
  destruct success; reflexivity.
Qed.

Lemma entry_recordSourceResult reg now source success rt :
  entry (recordSourceResult reg now source success rt) source
  = (let old := entry reg source in
     let available := if success then (availableCount old + 1)%N else availableCount old in
     {| availableCount := available;
        totalRequests := (totalRequests old + 1)%N;
        avgResponseTime :=
          if success
          then ((avgResponseTime old * of_count (available - 1) + rt) / of_count available)%float
          else avgResponseTime old;
        lastSuccess := if success then Some now else lastSuccess old;
        lastFailure := if success then lastFailure old else Some now;
        successRate := (of_count available / of_count (totalRequests old + 1))%float;
        qualityScore := qualityScore old |}).
Proof.
  unfold entry at 1. now rewrite recordSourceResult_lookup.
Qed.

Lemma recordSourceResult_other reg now source success rt other :
  source <> other ->
  recordSourceResult reg now source success rt !! other = reg !! other.
Proof.
  intros Hne. unfold recordSourceResult. now rewrite lookup_insert_ne.
Qed.

Lemma entry_record_same reg c :
  entry (record reg c) (call_source c)
  = (let old := entry reg (call_source c) in
     let available :=
       if call_success c then (availableCount old + 1)%N else availableCount old in
     {| availableCount := available;
        totalRequests := (totalRequests old + 1)%N;
        avgResponseTime :=
          if call_success c
          then ((avgResponseTime old * of_count (available - 1) + call_responseTime c)
                  / of_count available)%float
          else avgResponseTime old;
        lastSuccess := if call_success c then Some (call_now c) else lastSuccess old;
        lastFailure := if call_success c then lastFailure old else Some (call_now c);
        successRate := (of_count available / of_count (totalRequests old + 1))%float;
        qualityScore := qualityScore old |}).
Proof.
  unfold record. unfold entry at 1. now rewrite recordSourceResult_lookup.
Qed.

Lemma entry_record_other reg c source :
  call_source c <> source -> entry (record reg c) source = entry reg source.
Proof.
  intros Hne. unfold record, entry. now rewrite recordSourceResult_other.
Qed.

(** What one call does to the two counters of [source]. *)
Lemma record_counters reg c source :
  totalRequests (entry (record reg c) source)
  = (totalRequests (entry reg source)
     + if String.eqb (call_source c) source then 1 else 0)%N
  /\ (availableCount (entry (record reg c) source)
      <= availableCount (entry reg source)
         + if String.eqb (call_source c) source then 1 else 0)%N.
Proof.
  destruct (String.eqb_spec (call_source c) source) as [<-|Hne].
  - rewrite entry_record_same. simpl. split; [reflexivity|].
    destruct (call_success c); lia.
  - rewrite entry_record_other by assumption. split; lia.
Qed.

Lemma run_snoc reg calls c : run reg (calls ++ [c]) = record (run reg calls) c.
Proof. unfold run. now rewrite fold_left_app. Qed.

Lemma callsFor_snoc source calls c :
  callsFor source (calls ++ [c])
  = (callsFor source calls + if String.eqb (call_source c) source then 1 else 0)%N.
Proof.
  unfold callsFor. rewrite List.filter_app, length_app. simpl.
  destruct (String.eqb (call_source c) source); simpl; lia.
Qed.

(** The counters of a fresh source after any run of calls. *)
Lemma run_counters reg source calls :
  fresh reg source ->
  totalRequests (entry (run reg calls) source) = callsFor source calls
  /\ (availableCount (entry (run reg calls) source)
      <= totalRequests (entry (run reg calls) source))%N.
Proof.
  intros (Ha & Ht & _).
  induction calls as [|c calls IH] using rev_ind.
  - simpl. rewrite Ha, Ht. split; [reflexivity | lia].
  - rewrite run_snoc, callsFor_snoc.
    destruct (record_counters (run reg calls) c source) as [Htot Hav].
    destruct IH as [IHt IHa]. rewrite Htot, IHt. split; [reflexivity|].
    rewrite <- IHt. lia.
Qed.

End RegistryFacts.

(** ** The ranking engine *)

Section RankingFacts.
Import Js Ranking Runs.

Lemma reliable_spec (reg : Registry) (source : string) :
  reliable reg source = true <->
  ~ (exists stats, reg !! source = Some stats
                   /\ (5 < totalRequests stats)%N
                   /\ (successRate stats <? 0.2)%float = true).
Proof.
  unfold reliable. destruct (reg !! source) as [stats|] eqn:Hs.
  - destruct (5 <? totalRequests stats)%N eqn:Ht; simpl.
    + apply N.ltb_lt in Ht.
      destruct (successRate stats <? 0.2)%float eqn:Hr; simpl.
      * split; [discriminate|]. intros H. exfalso. apply H. eauto.
      * split; [|reflexivity]. intros _ (st & Hst & _ & Hlt).
        injection Hst as <-. congruence.
    + apply N.ltb_ge in Ht. split; [|reflexivity].
      intros _ (st & Hst & Hlt & _). injection Hst as <-. lia.
  - split; [|reflexivity]. intros _ (st & Hst & _). discriminate.
Qed.

Lemma rankSources_In (defaults : list string) (reg : Registry)
    (sources : list string) (s : string) :
  In s (rankSources defaults reg sources) <->
  In s (match sources with [] => defaults | _ => sources end) /\ reliable reg s = true.
Proof.
  unfold rankSources. rewrite sort_In, List.filter_In. reflexivity.
Qed.

(** C1, as the code has it: an empty candidate list stands for the
    configured default sources. [rankSources []] is the ranking of
    [DEFAULT_SOURCES], empty only when every default source is filtered out as
    unreliable, and [getBestSource []] is the head of that ranking, [null]
    only when it is empty. Both are total functions: neither throws. *)
Theorem rankSources_empty_ranks_defaults (defaults : list string) (reg : Registry) :
  rankSources defaults reg [] = rankSources defaults reg defaults
  /\ getBestSource defaults reg [] = List.head (rankSources defaults reg defaults)
  /\ (rankSources defaults reg [] = []
      <-> forall s, In s defaults -> reliable reg s = false)
  /\ (getBestSource defaults reg [] = None <-> rankSources defaults reg [] = []).
Proof.
  assert (Hsame : rankSources defaults reg [] = rankSources defaults reg defaults)
    by (destruct defaults; reflexivity).
  repeat split.
  - exact Hsame.
  - unfold getBestSource. rewrite Hsame.
    now destruct (rankSources defaults reg defaults).
  - intros Hnil s Hin. destruct (reliable reg s) eqn:Hr; [|reflexivity].
    assert (Hs : In s (rankSources defaults reg [])) by (apply rankSources_In; auto).
    rewrite Hnil in Hs. destruct Hs.
  - intros Hall. destruct (rankSources defaults reg []) as [|s rest] eqn:Hrank; [reflexivity|].
    assert (Hs : In s (rankSources defaults reg [])) by (rewrite Hrank; now left).
    apply rankSources_In in Hs as [Hin Hr]. rewrite (Hall s Hin) in Hr. discriminate.
  - unfold getBestSource. now destruct (rankSources defaults reg []).
  - intros H. unfold getBestSource. now rewrite H.
Qed.

(** C1, as the specification states it, fails on the service as constructed
    with the built-in configuration: the empty candidate list is ranked as
    the five default sources, and the best source is not [null]. *)
Lemma rankSources_empty_not_empty :
  ~ (rankSources builtin_DEFAULT_SOURCES newService [] = []
     /\ getBestSource builtin_DEFAULT_SOURCES newService [] = None).
Proof.
  assert (H : rankSources builtin_DEFAULT_SOURCES newService []
              = ["ytdlp"; "migu"; "kugou"; "kuwo"; "bilibili"])
    by (vm_compute; reflexivity).
  intros [Hnil _]. rewrite H in Hnil. discriminate.
Qed.

(** C3: a successful [recordSourceResult] increments [availableCount] and
    sets [avgResponseTime] to
    [(avg * (availableCount - 1) + responseTime) / availableCount], with the
    incremented count; a failed one leaves [avgResponseTime] (and
    [availableCount]) as they were; and three successes with latencies 100,
    200 and 300 on a fresh source leave an average of exactly 200. *)
Theorem recordSourceResult_running_average :
  (forall (reg : Registry) now source rt,
      exists new,
        recordSourceResult reg now source true rt !! source = Some new
        /\ availableCount new = (availableCount (entry reg source) + 1)%N
        /\ avgResponseTime new
           = ((avgResponseTime (entry reg source) * of_count (availableCount new - 1) + rt)
                / of_count (availableCount new))%float)
  /\ (forall (reg : Registry) now source rt,
      exists new,
        recordSourceResult reg now source false rt !! source = Some new
        /\ availableCount new = availableCount (entry reg source)
        /\ avgResponseTime new = avgResponseTime (entry reg source))
  /\ (forall (reg : Registry) source t1 t2 t3,
      fresh reg source ->
      avgResponseTime
        (entry (recordSourceResult
                  (recordSourceResult
                     (recordSourceResult reg t1 source true 100)
                     t2 source true 200)
                  t3 source true 300) source)
      = 200%float).
Proof.
  split; [|split].
  - intros. eexists. split; [apply recordSourceResult_lookup|]. simpl. split; reflexivity.
  - intros. eexists. split; [apply recordSourceResult_lookup|]. simpl. split; reflexivity.
  - intros reg source t1 t2 t3 (Ha & _ & Havg).
    rewrite !entry_recordSourceResult.
    cbn [availableCount avgResponseTime]. rewrite Ha, Havg.
    vm_compute. reflexivity.
Qed.

Lemma recordSourceResult_running_average_witness :
  avgResponseTime
    (entry (recordSourceResult
              (recordSourceResult
                 (recordSourceResult newService 1 "kugou" true 100)
                 2 "kugou" true 200)
              3 "kugou" true 300) "kugou")
  = 200%float.
Proof.
  apply (proj2 (proj2 recordSourceResult_running_average)).
  vm_compute. repeat split; reflexivity.
Defined.

(** C4: [rankSources] drops exactly the candidates whose registry entry
    has [totalRequests > 5] and [successRate < 0.2]; every other candidate,
    with or without an entry, is in the ranking. A source with
    [totalRequests = 10] and [successRate = 0.1] is in no ranking at all. *)
Theorem rankSources_reliability_filter :
  (forall defaults (reg : Registry) sources s,
      In s sources ->
      (In s (rankSources defaults reg sources) <->
       ~ (exists stats, reg !! s = Some stats
                        /\ (5 < totalRequests stats)%N
                        /\ (successRate stats <? 0.2)%float = true)))
  /\ (forall defaults (reg : Registry) sources s stats,
      reg !! s = Some stats ->
      totalRequests stats = 10%N ->
      successRate stats = 0.1%float ->
      ~ In s (rankSources defaults reg sources)).
Proof.
  split.
  - intros defaults reg sources s Hin.
    rewrite rankSources_In, reliable_spec.
    destruct sources as [|x xs]; [destruct Hin|]. tauto.
  - intros defaults reg sources s stats Hs Ht Hr Hin.
    apply rankSources_In in Hin as [_ Hrel].
    unfold reliable in Hrel. rewrite Hs, Ht, Hr in Hrel.
    vm_compute in Hrel. discriminate.
Qed.

Lemma rankSources_reliability_filter_witness :
  (In "kuwo" (rankSources builtin_DEFAULT_SOURCES
                (<["kugou" := mkStats 1 10 0 None None 0.1 80]> newService)
                ["kugou"; "kuwo"])
   <-> ~ (exists stats,
             <["kugou" := mkStats 1 10 0 None None 0.1 80]> newService !! "kuwo" = Some stats
             /\ (5 < totalRequests stats)%N
             /\ (successRate stats <? 0.2)%float = true))
  /\ ~ In "kugou" (rankSources builtin_DEFAULT_SOURCES
                     (<["kugou" := mkStats 1 10 0 None None 0.1 80]> newService)
                     ["kugou"; "kuwo"]).
Proof.
  split.
  - apply (proj1 rankSources_reliability_filter). simpl. auto.
  - apply (proj2 rankSources_reliability_filter) with (stats := mkStats 1 10 0 None None 0.1 80);
      reflexivity.
Defined.

(** C5: on ['3g'] and ['2g'], [adjustSourcesForNetwork] keeps the ranking
    of [rankSources], in its order, without the sources whose entry has
    [qualityScore > 85] and [avgResponseTime > 300]. For A (95, 800 ms) and
    B (70, 100 ms), both reliable, the answer to [[A, B]] on ['3g'] is
    [[B]]. *)
Theorem adjustSourcesForNetwork_constrained :
  (forall defaults (reg : Registry) sources net,
      net = "3g"%string \/ net = "2g"%string ->
      adjustSourcesForNetwork defaults reg sources net
      = List.filter
          (fun s => match reg !! s with
                    | Some stats =>
                        negb ((85 <? qualityScore stats)%float
                              && (300 <? avgResponseTime stats)%float)
                    | None => true
                    end)
          (rankSources defaults reg sources))
  /\ (forall defaults (reg : Registry) sources net s,
      net = "3g"%string \/ net = "2g"%string ->
      (In s (adjustSourcesForNetwork defaults reg sources net) <->
       In s (rankSources defaults reg sources)
       /\ ~ (exists stats, reg !! s = Some stats
                           /\ (85 <? qualityScore stats)%float = true
                           /\ (300 <? avgResponseTime stats)%float = true)))
  /\ (forall defaults (reg : Registry) A B statsA statsB net,
      net = "3g"%string \/ net = "2g"%string ->
      reg !! A = Some statsA ->
      reg !! B = Some statsB ->
      qualityScore statsA = 95%float -> avgResponseTime statsA = 800%float ->
      qualityScore statsB = 70%float -> avgResponseTime statsB = 100%float ->
      reliable reg A = true ->
      reliable reg B = true ->
      adjustSourcesForNetwork defaults reg [A; B] net = [B]).
Proof.
  assert (Hfilter : forall defaults (reg : Registry) sources net,
      net = "3g"%string \/ net = "2g"%string ->
      adjustSourcesForNetwork defaults reg sources net
      = List.filter
          (fun s => match reg !! s with
                    | Some stats =>
                        negb ((85 <? qualityScore stats)%float
                              && (300 <? avgResponseTime stats)%float)
                    | None => true
                    end)
          (rankSources defaults reg sources)).
  { intros defaults reg sources net [-> | ->]; reflexivity. }
  split; [exact Hfilter|]. split.
  - intros defaults reg sources net s Hnet.
    rewrite (Hfilter _ _ _ _ Hnet), List.filter_In.
    destruct (reg !! s) as [stats|] eqn:Hs.
    + destruct (85 <? qualityScore stats)%float eqn:Hq;
        destruct (300 <? avgResponseTime stats)%float eqn:Ha; simpl;
        split; intros [Hin H]; split; try assumption; try reflexivity; try discriminate.
      * exfalso. apply H. eauto.
      * intros (st & Hst & _ & Ha'). injection Hst as <-. congruence.
      * intros (st & Hst & Hq' & _). injection Hst as <-. congruence.
      * intros (st & Hst & Hq' & _). injection Hst as <-. congruence.
    + split; intros [Hin H]; split; try assumption; try reflexivity.
      intros (st & Hst & _). discriminate.
  - intros defaults reg A B statsA statsB net Hnet HA HB HqA HaA HqB HaB HrA HrB.
    rewrite (Hfilter _ _ _ _ Hnet). unfold rankSources.
    cbn [List.filter]. rewrite HrA, HrB, sort_pair.
    destruct (negative (compareSources defaults reg B A));
      cbn [List.filter]; rewrite HA, HB, HqA, HaA, HqB, HaB; reflexivity.
Qed.

Lemma adjustSourcesForNetwork_constrained_witness :
  adjustSourcesForNetwork builtin_DEFAULT_SOURCES
    (<["ytdlp" := mkStats 4 4 800 None None 1 95]>
       (<["joox" := mkStats 4 4 100 None None 1 70]> newService))
    ["ytdlp"; "joox"] "3g"
  = ["joox"].
Proof.
  apply (proj2 (proj2 adjustSourcesForNetwork_constrained))
    with (statsA := mkStats 4 4 800 None None 1 95)
         (statsB := mkStats 4 4 100 None None 1 70);
    first [ left; reflexivity | reflexivity ].
Defined.

Lemma callsFor_take_S source calls n :
  (callsFor source (take n calls) <= callsFor source (take (S n) calls))%N.
Proof.
  unfold callsFor.
  enough (H : (length (List.filter (fun c => String.eqb (call_source c) source) (take n calls))
               <= length (List.filter (fun c => String.eqb (call_source c) source)
                            (take (S n) calls)))%nat) by lia.
  revert n. induction calls as [|c calls IH]; intros [|n]; simpl; try lia.
  specialize (IH n). simpl in IH.
  destruct (String.eqb (call_source c) source); simpl; lia.
Qed.

(** C6: on a source that starts fresh, after every prefix of every sequence
    of [recordSourceResult] calls (for this and for other sources),
    [totalRequests] is the number of calls made for the source so far, it
    never decreases from one call to the next, and
    [availableCount <= totalRequests]. *)
Theorem recordSourceResult_monotonic_counters (reg : Registry) (source : string)
    (calls : list Call) :
  fresh reg source ->
  totalRequests (entry (run reg calls) source) = callsFor source calls
  /\ forall n,
      totalRequests (entry (run reg (take n calls)) source) = callsFor source (take n calls)
      /\ (totalRequests (entry (run reg (take n calls)) source)
          <= totalRequests (entry (run reg (take (S n) calls)) source))%N
      /\ (availableCount (entry (run reg (take n calls)) source)
          <= totalRequests (entry (run reg (take n calls)) source))%N.
Proof.
  intros Hfresh. split.
  - apply run_counters, Hfresh.
  - intros n.
    destruct (run_counters reg source (take n calls) Hfresh) as [Ht Ha].
    destruct (run_counters reg source (take (S n) calls) Hfresh) as [Ht' _].
    split; [exact Ht|]. split; [|exact Ha].
    rewrite Ht, Ht'. apply callsFor_take_S.
Qed.

Lemma recordSourceResult_monotonic_counters_witness :
  totalRequests
    (entry (run newService
              [mkCall 1 "kugou" true 120; mkCall 2 "migu" false 0; mkCall 3 "kugou" false 0])
           "kugou")
  = 2%N.
Proof.
  refine (proj1 (recordSourceResult_monotonic_counters newService "kugou"
                   [mkCall 1 "kugou" true 120; mkCall 2 "migu" false 0;
                    mkCall 3 "kugou" false 0] _)).
  vm_compute. repeat split; reflexivity.
Defined.

(** C10: when one of the two compared sources has no entry in the
    registry, the comparator of [rankSources] looks at nothing but the
    positions in [DEFAULT_SOURCES]: its value is the one it has on an empty
    registry, and it puts [a] first exactly when [a] is in the list and [b]
    is absent from it or comes later. So a reliable [a] with an entry and a
    [b] without one that precedes [a] in [DEFAULT_SOURCES] are ranked
    [[b, a]], whatever the score of [a]: the comparator is positive on
    [(a, b)] and negative on [(b, a)]. *)
Theorem rankSources_default_order_without_stats :
  (forall defaults (reg : Registry) a b,
      reg !! a = None \/ reg !! b = None ->
      compareSources defaults reg a b = compareSources defaults ∅ a b
      /\ (negative (compareSources defaults reg a b) = true <->
          indexOf defaults a <> -1
          /\ (indexOf defaults b = -1 \/ indexOf defaults a < indexOf defaults b)))
  /\ (forall defaults (reg : Registry) a b statsA,
      reg !! a = Some statsA ->
      reg !! b = None ->
      reliable reg a = true ->
      indexOf defaults b <> -1 ->
      indexOf defaults a = -1 \/ indexOf defaults b < indexOf defaults a ->
      rankSources defaults reg [a; b] = [b; a]
      /\ (exists z, compareSources defaults reg a b = Int z /\ 0 < z)
      /\ (exists z, compareSources defaults reg b a = Int z /\ z < 0)).
Proof.
  assert (Hcmp : forall defaults (reg : Registry) a b,
      reg !! a = None \/ reg !! b = None ->
      compareSources defaults reg a b = compareSources defaults ∅ a b
      /\ (negative (compareSources defaults reg a b) = true <->
          indexOf defaults a <> -1
          /\ (indexOf defaults b = -1 \/ indexOf defaults a < indexOf defaults b))).
  { intros defaults reg a b Hnone.
    assert (Heq : compareSources defaults reg a b = compareSources defaults ∅ a b).
    { unfold compareSources. rewrite !lookup_empty.
      destruct Hnone as [-> | Hb]; [reflexivity|].
      rewrite Hb. now destruct (reg !! a). }
    split; [exact Heq|]. rewrite Heq. unfold compareSources. rewrite !lookup_empty.
    cbv zeta.
    destruct (Z.eqb_spec (indexOf defaults a) (-1)) as [Ha|Ha];
      destruct (Z.eqb_spec (indexOf defaults b) (-1)) as [Hb|Hb]; simpl.
    - split; [discriminate|]. intros [H _]. contradiction.
    - split; [discriminate|]. intros [H _]. contradiction.
    - split; [auto|reflexivity].
    - rewrite Z.ltb_lt. split.
      + intros H. split; [assumption|]. right. lia.
      + intros [_ [H|H]]; [contradiction|lia]. }
  split; [exact Hcmp|].
  intros defaults reg a b statsA Ha Hb Hrel Hib Hord.
  split; [|split].
  - unfold rankSources. cbn [List.filter]. rewrite Hrel.
    assert (Hrb : reliable reg b = true) by (unfold reliable; now rewrite Hb).
    rewrite Hrb, sort_pair.
    destruct (Hcmp defaults reg b a (or_introl Hb)) as [_ Hneg].
    replace (negative (compareSources defaults reg b a)) with true; [reflexivity|].
    symmetry. apply Hneg. split; assumption.
  - unfold compareSources. rewrite Ha, Hb. cbv zeta.
    destruct (Z.eqb_spec (indexOf defaults a) (-1)) as [Hia|Hia];
      destruct (Z.eqb_spec (indexOf defaults b) (-1)) as [Hib'|Hib']; simpl;
      try contradiction.
    + exists 1. split; [reflexivity|lia].
    + eexists. split; [reflexivity|]. destruct Hord; [contradiction|lia].
  - unfold compareSources. rewrite Ha, Hb. cbv zeta.
    destruct (Z.eqb_spec (indexOf defaults a) (-1)) as [Hia|Hia];
      destruct (Z.eqb_spec (indexOf defaults b) (-1)) as [Hib'|Hib']; simpl;
      try contradiction.
    + exists (-1). split; [reflexivity|lia].
    + eexists. split; [reflexivity|]. destruct Hord; [contradiction|lia].
Qed.

Lemma rankSources_default_order_without_stats_witness :
  rankSources builtin_DEFAULT_SOURCES
    (<["ytdlp" := mkStats 9 9 50 None None 1 95]> ∅) ["ytdlp"; "kuwo"]
  = ["kuwo"; "ytdlp"].
Proof.
  refine (proj1 (proj2 rankSources_default_order_without_stats
                   builtin_DEFAULT_SOURCES _ "ytdlp"%string "kuwo"%string
                   (mkStats 9 9 50 None None 1 95) _ _ _ _ _)).
  - reflexivity.
  - reflexivity.
  - reflexivity.
  - vm_compute. discriminate.
  - right. vm_compute. reflexivity.
Defined.

End RankingFacts.

(** ** The memory cache *)

Section LruFacts.
Context {V : Type}.
Import CacheRuns.
Implicit Types (es : list (LRUCache.Entry V)) (e : LRUCache.Entry V) (k : string).

Lemma find_remove_ne k k' es :
  k <> k' -> LRUCache.find k (LRUCache.remove k' es) = LRUCache.find k es.
Proof.
  intros Hne. induction es as [|e es IH]; simpl; [reflexivity|].
  destruct (String.eqb_spec (LRUCache.key e) k') as [Hk'|Hk']; simpl.
  - destruct (String.eqb_spec (LRUCache.key e) k) as [Hk|Hk]; [congruence|exact IH].
  - now rewrite IH.
Qed.

Lemma find_remove_eq k es : LRUCache.find k (LRUCache.remove k es) = None.
Proof.
  induction es as [|e es IH]; simpl; [reflexivity|].
  destruct (String.eqb_spec (LRUCache.key e) k) as [Hk|Hk]; simpl; [exact IH|].
  destruct (String.eqb_spec (LRUCache.key e) k); [contradiction|exact IH].
Qed.

Lemma find_remove_None k k' es :
  LRUCache.find k es = None -> LRUCache.find k (LRUCache.remove k' es) = None.
Proof.
  intros Hnone. destruct (String.eqb_spec k k') as [->|Hne].
  - apply find_remove_eq.
  - now rewrite find_remove_ne.
Qed.

Lemma find_Some_In k es e :
  LRUCache.find k es = Some e -> In e es /\ LRUCache.key e = k.
Proof.
  induction es as [|x es IH]; simpl; [discriminate|].
  destruct (String.eqb_spec (LRUCache.key x) k) as [Hk|Hk].
  - intros [= <-]. auto.
  - intros H. destruct (IH H). auto.
Qed.

Lemma find_set_same max now k (v : V) ttl es :
  LRUCache.find k (LRUCache.set max now k v ttl es)
  = Some (LRUCache.mkEntry k v ttl (if ttl =? 0 then 0 else now)).
Proof.
  unfold LRUCache.set. destruct (LRUCache.find k es); simpl; now rewrite String.eqb_refl.
Qed.

Lemma isStale_later now later e :
  now <= later -> LRUCache.isStale now e = true -> LRUCache.isStale later e = true.
Proof.
  unfold LRUCache.isStale. intros Hle H.
  apply andb_true_iff in H as [H Hlt]. rewrite H. simpl.
  apply Z.ltb_lt in Hlt. apply Z.ltb_lt. lia.
Qed.

Lemma isStale_within now k (v : V) ttl t :
  now - t <= ttl ->
  LRUCache.isStale now (LRUCache.mkEntry k v ttl (if ttl =? 0 then 0 else t)) = false.
Proof.
  unfold LRUCache.isStale. simpl. intros Hle.
  destruct (Z.eqb_spec ttl 0) as [Hz|Hz]; simpl; [reflexivity|].
  destruct (t =? 0); simpl; [reflexivity|]. apply Z.ltb_ge. lia.
Qed.

(** A live entry is returned. *)
Lemma get_live now k es e :
  LRUCache.find k es = Some e -> LRUCache.isStale now e = false ->
  fst (LRUCache.get now k es) = Some (LRUCache.value e).
Proof. unfold LRUCache.get. now intros -> ->. Qed.

(** Without a live entry, nothing is returned. *)
Lemma get_nothing now k es :
  (forall e, LRUCache.find k es = Some e -> LRUCache.isStale now e = true) ->
  fst (LRUCache.get now k es) = None.
Proof.
  unfold LRUCache.get. intros H. destruct (LRUCache.find k es) as [e|]; [|reflexivity].
  now rewrite (H e eq_refl).
Qed.

Lemma get_Some_inv now k es v :
  fst (LRUCache.get now k es) = Some v ->
  exists e, LRUCache.find k es = Some e /\ LRUCache.isStale now e = false
            /\ LRUCache.value e = v.
Proof.
  unfold LRUCache.get. destruct (LRUCache.find k es) as [e|]; [|discriminate].
  destruct (LRUCache.isStale now e) eqn:Hs; [discriminate|].
  simpl. intros [= <-]. eauto.
Qed.

(** A live entry has its key among [keys]. *)
Lemma keys_live now k es e :
  LRUCache.find k es = Some e -> LRUCache.isStale now e = false ->
  In k (LRUCache.keys now es).
Proof.
  intros Hfind Hlive. apply find_Some_In in Hfind as [Hin <-].
  unfold LRUCache.keys. apply in_map, List.filter_In. now rewrite Hlive.
Qed.

Lemma purge_other prefix ks es k :
  Js.startsWith k prefix = false ->
  LRUCache.find k (purge prefix ks es) = LRUCache.find k es.
Proof.
  intros Hk. revert es. induction ks as [|k' ks IH]; intros es; simpl; [reflexivity|].
  fold (@purge V prefix ks). rewrite IH.
  destruct (Js.startsWith k' prefix) eqn:Hk'; [|reflexivity].
  apply find_remove_ne. congruence.
Qed.

Lemma purge_None prefix ks es k :
  LRUCache.find k es = None -> LRUCache.find k (purge prefix ks es) = None.
Proof.
  revert es. induction ks as [|k' ks IH]; intros es Hnone; simpl; [assumption|].
  fold (@purge V prefix ks). apply IH.
  destruct (Js.startsWith k' prefix); [|assumption].
  now apply find_remove_None.
Qed.

Lemma purge_unchanged_or_gone prefix ks es k :
  LRUCache.find k (purge prefix ks es) = LRUCache.find k es
  \/ LRUCache.find k (purge prefix ks es) = None.
Proof.
  revert es. induction ks as [|k' ks IH]; intros es; simpl; [now left|].
  fold (@purge V prefix ks).
  destruct (Js.startsWith k' prefix); [|apply IH].
  destruct (String.eqb_spec k k') as [->|Hne].
  - right. apply purge_None, find_remove_eq.
  - destruct (IH (LRUCache.delete k' es)) as [H|H]; [left|now right].
    rewrite H. now apply find_remove_ne.
Qed.

Lemma purge_listed prefix ks es k :
  Js.startsWith k prefix = true -> In k ks ->
  LRUCache.find k (purge prefix ks es) = None.
Proof.
  intros Hk. revert es. induction ks as [|k' ks IH]; intros es Hin; simpl; [destruct Hin|].
  fold (@purge V prefix ks). destruct Hin as [->|Hin].
  - rewrite Hk. apply purge_None, find_remove_eq.
  - now apply IH.
Qed.

(** After the loop over [keys], a key with the prefix has no live entry. *)
Lemma purge_keys_stale now prefix es k e :
  Js.startsWith k prefix = true ->
  LRUCache.find k (purge prefix (LRUCache.keys now es) es) = Some e ->
  LRUCache.isStale now e = true.
Proof.
  intros Hk Hfind.
  destruct (purge_unchanged_or_gone prefix (LRUCache.keys now es) es k) as [H|H];
    [|congruence].
  rewrite H in Hfind. destruct (LRUCache.isStale now e) eqn:Hs; [reflexivity|].
  rewrite (purge_listed prefix _ es k Hk (keys_live now k es e Hfind Hs)) in H.
  congruence.
Qed.

Lemma filter_twice {A} (f g : A -> bool) (l : list A) :
  List.filter f (List.filter g l) = List.filter (fun x => g x && f x) l.
Proof.
  induction l as [|x l IH]; simpl; [reflexivity|].
  destruct (g x); simpl; [destruct (f x)|]; now rewrite IH.
Qed.

Lemma filter_all {A} (l : list A) : List.filter (fun _ => true) l = l.
Proof. induction l as [|x l IH]; simpl; [reflexivity|now rewrite IH]. Qed.

Lemma filter_map_key (p : string -> bool) es :
  List.filter p (List.map LRUCache.key es)
  = List.map LRUCache.key (List.filter (fun e => p (LRUCache.key e)) es).
Proof.
  induction es as [|e es IH]; simpl; [reflexivity|].
  destruct (p (LRUCache.key e)); simpl; now rewrite IH.
Qed.

(** The loop deletes the entries whose key has the prefix and is listed. *)
Lemma purge_filter prefix ks es :
  purge prefix ks es
  = List.filter
      (fun e => negb (existsb (fun k => Js.startsWith k prefix
                                        && String.eqb (LRUCache.key e) k) ks))
      es.
Proof.
  revert es. induction ks as [|k ks IH]; intros es; simpl.
  - now rewrite filter_all.
  - fold (@purge V prefix ks). rewrite IH.
    destruct (Js.startsWith k prefix); simpl; [|reflexivity].
    unfold LRUCache.delete, LRUCache.remove. rewrite filter_twice.
    apply List.filter_ext. intros e. now rewrite negb_orb.
Qed.

(** Among the live keys, the loop over [keys] leaves those without the
    prefix, in their order. *)
Lemma keys_purge now prefix es :
  LRUCache.keys now (purge prefix (LRUCache.keys now es) es)
  = List.filter (fun k => negb (Js.startsWith k prefix)) (LRUCache.keys now es).
Proof.
  rewrite purge_filter. unfold LRUCache.keys at 1 3.
  rewrite filter_twice, filter_map_key, filter_twice. f_equal.
  apply List.filter_ext_in. intros e Hin.
  destruct (LRUCache.isStale now e) eqn:Hstale; simpl; [apply andb_false_r|].
  rewrite andb_true_r. f_equal.
  destruct (Js.startsWith (LRUCache.key e) prefix) eqn:Hp.
  - apply existsb_exists. exists (LRUCache.key e). split.
    + unfold LRUCache.keys. apply in_map, List.filter_In. now rewrite Hstale.
    + now rewrite Hp, String.eqb_refl.
  - apply not_true_is_false. intros Hex.
    apply existsb_exists in Hex as (k & _ & Hk).
    apply andb_true_iff in Hk as [Hk Heq].
    apply String.eqb_eq in Heq. congruence.
Qed.

End LruFacts.

(** ** The cache service *)

Section CacheFacts.
Import CacheService CacheRuns.
Context {Payload : Type}.
Variable JSON_stringify : Value Payload -> option string.
Variable JSON_parse : string -> option (Value Payload).
Implicit Types (cs : State Payload) (key : string).

Lemma deleteByPrefix_memory cs now prefix reply :
  memoryCache (deleteByPrefix cs now prefix reply).1
  = purge prefix (LRUCache.keys now (memoryCache cs)) (memoryCache cs).
Proof.
  unfold deleteByPrefix. simpl.
  destruct (redisAvailable cs && redisClient cs); [|reflexivity].
  destruct reply as [[|k ks]|]; reflexivity.
Qed.

Lemma deleteByPrefix_rest cs now prefix reply :
  redisAvailable (deleteByPrefix cs now prefix reply).1 = redisAvailable cs
  /\ redisClient (deleteByPrefix cs now prefix reply).1 = redisClient cs
  /\ stats (deleteByPrefix cs now prefix reply).1 = stats cs.
Proof.
  unfold deleteByPrefix. simpl.
  destruct (redisAvailable cs && redisClient cs); [|auto].
  destruct reply as [[|k ks]|]; auto.
Qed.

(** The time to live, in seconds, that [set] settles on. *)
Lemma set_memory cs now key value options :
  memoryCache (set JSON_stringify cs now key value options).1
  = LRUCache.set MEMORY_MAX now key value
      ((if noTtl options
        then TTL (priority (spread defaultOptions options))
        else ttl (spread defaultOptions options)) * 1000)
      (memoryCache cs).
Proof.
  unfold set. destruct (noTtl options); simpl.
  - destruct (level (spread defaultOptions options)); [reflexivity|].
    destruct (redisAvailable cs && redisClient cs); [|reflexivity].
    now destruct (JSON_stringify value).
  - destruct (level (spread defaultOptions options)); [reflexivity|].
    destruct (redisAvailable cs && redisClient cs); [|reflexivity].
    now destruct (JSON_stringify value).
Qed.

Lemma set_rest cs now key value options :
  redisAvailable (set JSON_stringify cs now key value options).1 = redisAvailable cs
  /\ redisClient (set JSON_stringify cs now key value options).1 = redisClient cs
  /\ stats (set JSON_stringify cs now key value options).1 = stats cs.
Proof.
  unfold set.
  destruct (level _); simpl; [auto|].
  destruct (redisAvailable cs && redisClient cs); [|auto].
  destruct (JSON_stringify value); auto.
Qed.

(** A [get] that finds a live entry in memory. *)
Lemma get_localHit cs now key reply later e :
  LRUCache.find key (memoryCache cs) = Some e ->
  LRUCache.isStale now e = false ->
  (get JSON_parse cs now key reply later).1.1 = LRUCache.value e
  /\ hits (stats (get JSON_parse cs now key reply later).1.2) = (hits (stats cs) + 1)%N
  /\ misses (stats (get JSON_parse cs now key reply later).1.2) = misses (stats cs).
Proof.
  intros Hfind Hlive. unfold get, LRUCache.get. rewrite Hfind, Hlive. simpl. auto.
Qed.

(** A [get] that finds no live entry in memory, with Redis in use and
    answering with a string that parses. *)
Lemma get_sharedHit cs now key reply later :
  ~ localHit cs now key ->
  sharedHit JSON_parse cs reply ->
  hits (stats (get JSON_parse cs now key reply later).1.2) = (hits (stats cs) + 1)%N
  /\ misses (stats (get JSON_parse cs now key reply later).1.2) = misses (stats cs).
Proof.
  intros Hlocal (Hav & Hcl & s & v & -> & Hs & Hparse).
  unfold get, LRUCache.get.
  destruct (LRUCache.find key (memoryCache cs)) as [e|] eqn:Hfind.
  - destruct (LRUCache.isStale now e) eqn:Hstale.
    + simpl. rewrite Hav, Hcl. simpl.
      destruct (String.eqb_spec s ""); [contradiction|]. rewrite Hparse. simpl. auto.
    + exfalso. apply Hlocal. exists e. auto.
  - simpl. rewrite Hav, Hcl. simpl.
    destruct (String.eqb_spec s ""); [contradiction|]. rewrite Hparse. simpl. auto.
Qed.

(** A [get] that hits in no tier. *)
Lemma get_miss cs now key reply later :
  ~ localHit cs now key ->
  ~ sharedHit JSON_parse cs reply ->
  (get JSON_parse cs now key reply later).1.1 = Null
  /\ hits (stats (get JSON_parse cs now key reply later).1.2) = hits (stats cs)
  /\ misses (stats (get JSON_parse cs now key reply later).1.2) = (misses (stats cs) + 1)%N.
Proof.
  intros Hlocal Hshared.
  assert (Hmem : exists memory,
             LRUCache.get now key (memoryCache cs) = (None, memory)).
  { unfold LRUCache.get.
    destruct (LRUCache.find key (memoryCache cs)) as [e|] eqn:Hfind; [|eauto].
    destruct (LRUCache.isStale now e) eqn:Hstale; [eauto|].
    exfalso. apply Hlocal. exists e. auto. }
  destruct Hmem as [memory Hmem]. unfold get. rewrite Hmem. simpl.
  destruct (redisAvailable cs) eqn:Hav; [|simpl; auto].
  destruct (redisClient cs) eqn:Hcl; [|simpl; auto].
  simpl. destruct reply as [[s|]|]; simpl; auto.
  destruct (String.eqb_spec s "") as [Hs|Hs]; [simpl; auto|].
  destruct (JSON_parse s) as [v|] eqn:Hparse; [|simpl; auto].
  exfalso. apply Hshared. repeat split; try assumption. eauto.
Qed.

Lemma not_localHit_after_deleteByPrefix cs now prefix reply key later :
  Js.startsWith key prefix = true ->
  now <= later ->
  ~ localHit (deleteByPrefix cs now prefix reply).1 later key.
Proof.
  intros Hkey Hle (e & Hfind & Hlive).
  rewrite deleteByPrefix_memory in Hfind.
  apply purge_keys_stale in Hfind; [|assumption].
  rewrite (isStale_later now later e Hle Hfind) in Hlive. discriminate.
Qed.

Lemma sharedHit_flags cs cs' reply :
  redisAvailable cs' = redisAvailable cs ->
  redisClient cs' = redisClient cs ->
  ~ sharedHit JSON_parse cs reply -> ~ sharedHit JSON_parse cs' reply.
Proof.
  unfold sharedHit. intros -> ->. auto.
Qed.

(** What [set(key, value)] without options leaves at the front of the
    memory cache: one hour to live, counted from [now]. *)
Lemma find_set_default cs now key value :
  LRUCache.find key (memoryCache (set JSON_stringify cs now key value None).1)
  = Some (LRUCache.mkEntry key value 3600000 now).
Proof. rewrite set_memory. apply find_set_same. Qed.

(** C7, on the code: a [ttl] of [0] seconds given to [set] is not used. The
    entry written to the memory cache lives for the default of the
    priority (of [NORMAL], one hour, when no priority is given), counted
    from [now], and so does the entry sent to Redis. *)
Theorem set_zero_ttl_uses_priority_default :
  (forall cs now key value lvl,
      LRUCache.find key
        (memoryCache
           (set JSON_stringify cs now key value (Some (mkPartial (Some 0) lvl None))).1)
      = Some (LRUCache.mkEntry key value 3600000 now))
  /\ (forall cs now key value lvl p,
      LRUCache.find key
        (memoryCache
           (set JSON_stringify cs now key value (Some (mkPartial (Some 0) lvl (Some p)))).1)
      = Some (LRUCache.mkEntry key value (TTL p * 1000) now))
  /\ (forall now key (value : Value Payload),
      (set (fun _ => Some "{}"%string) (mkState [] true true (mkCounters 0 0 0 0))
         now key value (Some (mkPartial (Some 0) (Some REDIS) None))).2
      = [SET key "{}" 3600]).
Proof.
  split; [|split].
  - intros. rewrite set_memory. apply find_set_same.
  - intros. rewrite set_memory. simpl noTtl. cbv iota.
    rewrite find_set_same. now destruct p.
  - reflexivity.
Qed.

(** A [ttl] other than [0] is the one used, in both tiers. *)
Lemma set_nonzero_ttl_overrides cs now key value seconds lvl p :
  seconds <> 0 ->
  LRUCache.find key
    (memoryCache
       (set JSON_stringify cs now key value (Some (mkPartial (Some seconds) lvl p))).1)
  = Some (LRUCache.mkEntry key value (seconds * 1000) now)
  /\ forall sent, In sent (set JSON_stringify cs now key value
                             (Some (mkPartial (Some seconds) lvl p))).2 ->
                  exists serialized, sent = SET key serialized seconds.
Proof.
  intros Hnz. split.
  - rewrite set_memory. simpl noTtl.
    destruct (Z.eqb_spec seconds 0) as [|_]; [contradiction|].
    rewrite find_set_same. simpl.
    destruct (Z.eqb_spec (seconds * 1000) 0); [lia|reflexivity].
  - unfold set. simpl noTtl. destruct (Z.eqb_spec seconds 0) as [|_]; [contradiction|].
    simpl. destruct lvl as [[|]|]; simpl; try tauto.
    destruct (redisAvailable cs && redisClient cs); simpl; try tauto.
    destruct (JSON_stringify value); simpl; try tauto.
    intros sent [<-|[]]. eauto.
Qed.

(** C8: a [get] that hits, in memory or in Redis, adds one to [hits] and
    leaves [misses]; a [get] that hits in neither adds one to [misses],
    leaves [hits] and returns [null]. From zeroed counters, a [get] of an
    absent key, a [set] of the key and a [get] within its time to live
    return the value and leave [hits = 1], [misses = 1] and a [hitRate] of
    ["50.00%"]. *)
Theorem get_hit_rate_accounting :
  (forall cs now key reply later,
      (localHit cs now key \/ sharedHit JSON_parse cs reply ->
       hits (stats (get JSON_parse cs now key reply later).1.2) = (hits (stats cs) + 1)%N
       /\ misses (stats (get JSON_parse cs now key reply later).1.2) = misses (stats cs))
      /\ (~ localHit cs now key /\ ~ sharedHit JSON_parse cs reply ->
          hits (stats (get JSON_parse cs now key reply later).1.2) = hits (stats cs)
          /\ misses (stats (get JSON_parse cs now key reply later).1.2)
             = (misses (stats cs) + 1)%N
          /\ (get JSON_parse cs now key reply later).1.1 = Null))
  /\ (forall cs key value t1 t2 t3 reply1 later1 reply3 later3 heapUsed,
      hits (stats cs) = 0%N ->
      misses (stats cs) = 0%N ->
      ~ localHit cs t1 key ->
      ~ sharedHit JSON_parse cs reply1 ->
      t3 - t2 <= 3600000 ->
      let cs1 := (get JSON_parse cs t1 key reply1 later1).1.2 in
      let cs2 := (set JSON_stringify cs1 t2 key value None).1 in
      let found := get JSON_parse cs2 t3 key reply3 later3 in
      found.1.1 = value
      /\ hits (stats found.1.2) = 1%N
      /\ misses (stats found.1.2) = 1%N
      /\ hitRate (getStats found.1.2 heapUsed) = "50.00%"%string).
Proof.
  split.
  - intros cs now key reply later. split.
    + intros [(e & Hfind & Hlive)|Hshared].
      * now destruct (get_localHit cs now key reply later e Hfind Hlive) as (_ & ? & ?).
      * destruct (LRUCache.find key (memoryCache cs)) as [e|] eqn:Hfind.
        -- destruct (LRUCache.isStale now e) eqn:Hstale.
           ++ apply get_sharedHit; [|assumption].
              intros (e' & He' & Hlive). congruence.
           ++ now destruct (get_localHit cs now key reply later e Hfind Hstale) as (_ & ? & ?).
        -- apply get_sharedHit; [|assumption].
           intros (e' & He' & _). congruence.
    + intros [Hlocal Hshared].
      destruct (get_miss cs now key reply later Hlocal Hshared) as (? & ? & ?). auto.
  - intros cs key value t1 t2 t3 reply1 later1 reply3 later3 heapUsed
      Hh Hm Hlocal Hshared Httl cs1 cs2 found.
    destruct (get_miss cs t1 key reply1 later1 Hlocal Hshared) as (_ & Hh1 & Hm1).
    fold cs1 in Hh1, Hm1.
    destruct (set_rest cs1 t2 key value None) as (_ & _ & Hstats). fold cs2 in Hstats.
    pose proof (find_set_default cs1 t2 key value) as Hfind. fold cs2 in Hfind.
    assert (Hlive : LRUCache.isStale t3 (LRUCache.mkEntry key value 3600000 t2) = false)
      by (apply (isStale_within t3 key value 3600000 t2); exact Httl).
    destruct (get_localHit cs2 t3 key reply3 later3 _ Hfind Hlive) as (Hv & Hh3 & Hm3).
    fold found in Hv, Hh3, Hm3.
    rewrite Hstats, Hh1, Hh in Hh3. rewrite Hstats, Hm1, Hm in Hm3.
    repeat split; try assumption.
    unfold getStats. cbn [hitRate]. rewrite Hh3, Hm3. vm_compute. reflexivity.
Qed.

(** C9: [deleteByPrefix] leaves, of the keys that [keys()] lists, exactly
    those that do not start with the prefix, in their order; the entry of a
    key without the prefix is the one it was; a key with the prefix is not
    found in memory from then on. After [set("song:1", a)],
    [set("song:1:kugou", b)], [set("other:1", c)] and
    [deleteByPrefix("song:1")], a [get] of ["other:1"] within the hour
    returns [c], and a [get] of ["song:1"] or ["song:1:kugou"] returns
    [null], unless Redis holds the key. *)
Theorem deleteByPrefix_frame :
  (forall cs now prefix reply,
      LRUCache.keys now (memoryCache (deleteByPrefix cs now prefix reply).1)
      = List.filter (fun k => negb (Js.startsWith k prefix))
          (LRUCache.keys now (memoryCache cs)))
  /\ (forall cs now prefix reply key,
      Js.startsWith key prefix = false ->
      LRUCache.find key (memoryCache (deleteByPrefix cs now prefix reply).1)
      = LRUCache.find key (memoryCache cs))
  /\ (forall cs now prefix reply key later,
      Js.startsWith key prefix = true ->
      now <= later ->
      (LRUCache.get later key (memoryCache (deleteByPrefix cs now prefix reply).1)).1 = None)
  /\ (forall cs a b c t1 t2 t3 t4 t5 keysReply reply later,
      t4 <= t5 ->
      t5 - t3 <= 3600000 ->
      ~ sharedHit JSON_parse cs reply ->
      let cs1 := (set JSON_stringify cs t1 "song:1" a None).1 in
      let cs2 := (set JSON_stringify cs1 t2 "song:1:kugou" b None).1 in
      let cs3 := (set JSON_stringify cs2 t3 "other:1" c None).1 in
      let cs4 := (deleteByPrefix cs3 t4 "song:1" keysReply).1 in
      (get JSON_parse cs4 t5 "other:1" reply later).1.1 = c
      /\ (get JSON_parse cs4 t5 "song:1" reply later).1.1 = Null
      /\ (get JSON_parse cs4 t5 "song:1:kugou" reply later).1.1 = Null).
Proof.
  split; [|split; [|split]].
  - intros. rewrite deleteByPrefix_memory. apply keys_purge.
  - intros. rewrite deleteByPrefix_memory. now apply purge_other.
  - intros cs now prefix reply key later Hkey Hle.
    apply get_nothing. intros e Hfind.
    rewrite deleteByPrefix_memory in Hfind.
    apply (isStale_later now later e Hle).
    exact (purge_keys_stale now prefix (memoryCache cs) key e Hkey Hfind).
  - intros cs a b c t1 t2 t3 t4 t5 keysReply reply later Hle Httl Hshared cs1 cs2 cs3 cs4.
    assert (Hshared4 : ~ sharedHit JSON_parse cs4 reply).
    { destruct (set_rest cs t1 "song:1" a None) as (Ha1 & Hc1 & _).
      destruct (set_rest cs1 t2 "song:1:kugou" b None) as (Ha2 & Hc2 & _).
      destruct (set_rest cs2 t3 "other:1" c None) as (Ha3 & Hc3 & _).
      destruct (deleteByPrefix_rest cs3 t4 "song:1" keysReply) as (Ha4 & Hc4 & _).
      apply (sharedHit_flags cs); [| |assumption].
      - etransitivity; [exact Ha4|]. etransitivity; [exact Ha3|].
        etransitivity; [exact Ha2|]. exact Ha1.
      - etransitivity; [exact Hc4|]. etransitivity; [exact Hc3|].
        etransitivity; [exact Hc2|]. exact Hc1. }
    split; [|split].
    + assert (Hfind : LRUCache.find "other:1" (memoryCache cs4)
                      = Some (LRUCache.mkEntry "other:1" c 3600000 t3)).
      { unfold cs4. rewrite deleteByPrefix_memory, purge_other by reflexivity.
        apply find_set_default. }
      assert (Hlive : LRUCache.isStale t5 (LRUCache.mkEntry "other:1" c 3600000 t3) = false)
        by (apply (isStale_within t5 "other:1" c 3600000 t3); exact Httl).
      now destruct (get_localHit cs4 t5 "other:1" reply later _ Hfind Hlive) as (? & _).
    + apply get_miss; [|assumption].
      now apply not_localHit_after_deleteByPrefix.
    + apply get_miss; [|assumption].
      now apply not_localHit_after_deleteByPrefix.
Qed.

End CacheFacts.

Lemma get_hit_rate_accounting_witness :
  CacheService.hitRate
    (CacheService.getStats
       (CacheService.get (fun _ => None)
          (CacheService.set (fun _ => None)
             (CacheService.get (fun _ => None) (@CacheService.newService string false)
                1 "song:7" CacheService.Rejected 1).1.2
             2 "song:7" (CacheService.Data "seven"%string) None).1
          3 "song:7" CacheService.Rejected 3).1.2
       0)
  = "50.00%"%string.
Proof.
  refine (proj2 (proj2 (proj2
    (proj2 (get_hit_rate_accounting (fun _ => None) (fun _ => None))
       (@CacheService.newService string false) "song:7"%string
       (CacheService.Data "seven"%string) 1 2 3
       CacheService.Rejected 1 CacheService.Rejected 3 0%N _ _ _ _ _)))).
  - reflexivity.
  - reflexivity.
  - intros (e & Hfind & _). discriminate.
  - intros (Hav & _). discriminate.
  - lia.
Defined.

Lemma deleteByPrefix_frame_witness :
  (CacheService.get (fun _ => None)
     (CacheService.deleteByPrefix
        (CacheService.set (fun _ => None)
           (CacheService.set (fun _ => None)
              (CacheService.set (fun _ => None) (@CacheService.newService string false)
                 1 "song:1" (CacheService.Data "a"%string) None).1
              2 "song:1:kugou" (CacheService.Data "b"%string) None).1
           3 "other:1" (CacheService.Data "c"%string) None).1
        4 "song:1" CacheService.Rejected).1
     5 "other:1" CacheService.Rejected 5).1.1
  = CacheService.Data "c"%string.
Proof.
  refine (proj1
    (proj2 (proj2 (proj2 (deleteByPrefix_frame (fun _ => None) (fun _ => None))))
       (@CacheService.newService string false)
       (CacheService.Data "a"%string) (CacheService.Data "b"%string)
       (CacheService.Data "c"%string) 1 2 3 4 5
       CacheService.Rejected CacheService.Rejected 5 _ _ _)).
  - lia.
  - lia.
  - intros (Hav & _). discriminate.
Defined.

(** ** The song cache *)

Section SongCacheFacts.
Import CacheService CacheRuns SongCacheService.
Context {Payload : Type}.
Variable JSON_stringify : Value Payload -> option string.
Variable JSON_parse : string -> option (Value Payload).

(** C2, on the code: [clearSourceCache(source)] deletes by the prefix
    ["song::" + source], and an entry cached by [cacheSongSourceInfo] under a
    key that does not start with it, as for the song ["1"] and the source
    ["kugou"], is still returned by [getSongSourceInfo] for a day. *)
Theorem clearSourceCache_keeps_source_entries
    (cs : State Payload) (t0 t1 t2 : Z) (id source : string) (d : Payload)
    (keysReply : Settled (list string)) (reply : Settled (option string)) (later : Z) :
  Js.startsWith (getSongKey id (Some source)) (SONG_PREFIX +:+ ":" +:+ source) = false ->
  t2 - t0 <= 86400000 ->
  (getSongSourceInfo JSON_parse
     (clearSourceCache
        (cacheSongSourceInfo JSON_stringify cs t0 id source (Data d) None).1
        t1 source keysReply).1
     t2 id source reply later).1.1
  = Data d.
Proof.
  intros Hkey Httl. unfold getSongSourceInfo, clearSourceCache, cacheSongSourceInfo.
  set (key := getSongKey id (Some source)) in *.
  set (cs1 := (set JSON_stringify cs t0 key (Data d) _).1).
  assert (Hfind : LRUCache.find key (memoryCache cs1)
                  = Some (LRUCache.mkEntry key (Data d) 86400000 t0)).
  { unfold cs1. rewrite set_memory. apply find_set_same. }
  set (cs2 := (deleteByPrefix cs1 t1 _ keysReply).1).
  assert (Hfind2 : LRUCache.find key (memoryCache cs2)
                   = Some (LRUCache.mkEntry key (Data d) 86400000 t0)).
  { unfold cs2. rewrite deleteByPrefix_memory, purge_other by exact Hkey. exact Hfind. }
  assert (Hlive : LRUCache.isStale t2 (LRUCache.mkEntry key (Data d) 86400000 t0) = false)
    by (apply (isStale_within t2 key (Data d) 86400000 t0); exact Httl).
  now destruct (get_localHit JSON_parse cs2 t2 key reply later _ Hfind2 Hlive) as (? & _).
Qed.

End SongCacheFacts.

Lemma clearSourceCache_keeps_source_entries_witness :
  (SongCacheService.getSongSourceInfo (fun _ => None)
     (SongCacheService.clearSourceCache
        (SongCacheService.cacheSongSourceInfo (fun _ => None)
           (@CacheService.newService string false)
           1 "1" "kugou" (CacheService.Data "song"%string) None).1
        2 "kugou" CacheService.Rejected).1
     3 "1" "kugou" CacheService.Rejected 3).1.1
  = CacheService.Data "song"%string.
Proof.
  apply (clearSourceCache_keeps_source_entries (fun _ => None) (fun _ => None)).
  - reflexivity.
  - lia.
Defined.

(** ** More on the statistics registry and the ranking *)

Section RegistryMore.
Import Js Ranking Runs.

Lemma callsFor_nil source : callsFor source [] = 0%N.
Proof. reflexivity. Qed.

Lemma run_lookup_untouched (reg : Registry) calls source :
  callsFor source calls = 0%N -> run reg calls !! source = reg !! source.
Proof.
  induction calls as [|c calls IH] using rev_ind; intros Hnone; [reflexivity|].
  rewrite callsFor_snoc in Hnone. rewrite run_snoc.
  destruct (String.eqb_spec (call_source c) source) as [Heq|Hne]; [lia|].
  unfold record. rewrite recordSourceResult_other by assumption.
  apply IH. lia.
Qed.

Lemma run_lookup_called (reg : Registry) calls source :
  (0 < callsFor source calls)%N -> is_Some (run reg calls !! source).
Proof.
  induction calls as [|c calls IH] using rev_ind; intros Hsome.
  - rewrite callsFor_nil in Hsome. lia.
  - rewrite callsFor_snoc in Hsome. rewrite run_snoc.
    destruct (String.eqb_spec (call_source c) source) as [<-|Hne].
    + unfold record. rewrite recordSourceResult_lookup. eauto.
    + unfold record. rewrite recordSourceResult_other by assumption.
      apply IH. lia.
Qed.

Lemma run_lookup_kept (reg : Registry) calls source :
  is_Some (reg !! source) -> is_Some (run reg calls !! source).
Proof.
  intros Hsome. induction calls as [|c calls IH] using rev_ind; [assumption|].
  rewrite run_snoc. unfold record.
  destruct (String.eqb_spec (call_source c) source) as [<-|Hne].
  - rewrite recordSourceResult_lookup. eauto.
  - now rewrite recordSourceResult_other.
Qed.

(** X1: whatever is recorded, for whatever sources, the quality score of
    every source stays what it was (70 for a source without an entry); the
    entry of a source no call was made for is untouched; and the sources with
    an entry are those that had one and those a call was made for. *)
Theorem run_keeps_quality_and_untouched_sources (reg : Registry) (calls : list Call)
    (source : string) :
  qualityScore (entry (run reg calls) source) = qualityScore (entry reg source)
  /\ (callsFor source calls = 0%N -> run reg calls !! source = reg !! source)
  /\ (is_Some (run reg calls !! source)
      <-> is_Some (reg !! source) \/ (0 < callsFor source calls)%N).
Proof.
  split; [|split].
  - induction calls as [|c calls IH] using rev_ind; [reflexivity|].
    rewrite run_snoc.
    destruct (String.eqb_spec (call_source c) source) as [<-|Hne].
    + rewrite entry_record_same. simpl. exact IH.
    + rewrite entry_record_other by assumption. exact IH.
  - apply run_lookup_untouched.
  - split.
    + intros Hsome. destruct (N.eq_dec (callsFor source calls) 0%N) as [Hz|Hnz].
      * left. now rewrite <- (run_lookup_untouched reg calls source Hz).
      * right. lia.
    + intros [Hsome|Hcalled].
      * now apply run_lookup_kept.
      * now apply run_lookup_called.
Qed.

(** X2: once a call has been made for a source, its stored [successRate]
    is [availableCount / totalRequests] of its stored counters, after every
    run of calls. *)
Theorem run_successRate_is_ratio (reg : Registry) (calls : list Call) (source : string) :
  (0 < callsFor source calls)%N ->
  successRate (entry (run reg calls) source)
  = (of_count (availableCount (entry (run reg calls) source))
     / of_count (totalRequests (entry (run reg calls) source)))%float.
Proof.
  induction calls as [|c calls IH] using rev_ind; intros Hcalled.
  - rewrite callsFor_nil in Hcalled. lia.
  - rewrite callsFor_snoc in Hcalled. rewrite run_snoc.
    destruct (String.eqb_spec (call_source c) source) as [<-|Hne].
    + rewrite entry_record_same. reflexivity.
    + rewrite entry_record_other by assumption. apply IH. lia.
Qed.

Lemma run_successRate_is_ratio_witness :
  successRate
    (entry (run newService [mkCall 1 "kugou" true 120; mkCall 2 "kugou" false 0]) "kugou")
  = (of_count
       (availableCount
          (entry (run newService [mkCall 1 "kugou" true 120; mkCall 2 "kugou" false 0])
             "kugou"))
     / of_count
         (totalRequests
            (entry (run newService [mkCall 1 "kugou" true 120; mkCall 2 "kugou" false 0])
               "kugou")))%float.
Proof.
  apply (run_successRate_is_ratio newService
           [mkCall 1 "kugou" true 120; mkCall 2 "kugou" false 0] "kugou").
  vm_compute. reflexivity.
Defined.

(** X3: a source that starts fresh is never filtered out of the ranking
    before its sixth recorded request, however the first five went. *)
Theorem rankSources_sample_size_guard (defaults : list string) (reg : Registry)
    (calls : list Call) (sources : list string) (source : string) :
  fresh reg source ->
  (callsFor source calls <= 5)%N ->
  In source sources ->
  reliable (run reg calls) source = true
  /\ In source (rankSources defaults (run reg calls) sources).
Proof.
  intros Hfresh Hfew Hin.
  assert (Hrel : reliable (run reg calls) source = true).
  { destruct (run_counters reg source calls Hfresh) as [Htotal _].
    unfold reliable. unfold entry in Htotal.
    destruct (run reg calls !! source) as [stats|]; [|reflexivity].
    rewrite Htotal. destruct (N.ltb_spec 5 (callsFor source calls)); [lia|reflexivity]. }
  split; [exact Hrel|].
  apply rankSources_In. split; [|exact Hrel].
  destruct sources; [destruct Hin|exact Hin].
Qed.

Lemma rankSources_sample_size_guard_witness :
  reliable
    (run newService
       [mkCall 1 "kuwo" false 0; mkCall 2 "kuwo" false 0; mkCall 3 "kuwo" false 0;
        mkCall 4 "kuwo" false 0; mkCall 5 "kuwo" false 0]) "kuwo" = true
  /\ In "kuwo"
       (rankSources builtin_DEFAULT_SOURCES
          (run newService
             [mkCall 1 "kuwo" false 0; mkCall 2 "kuwo" false 0; mkCall 3 "kuwo" false 0;
              mkCall 4 "kuwo" false 0; mkCall 5 "kuwo" false 0])
          ["kugou"; "kuwo"]).
Proof.
  apply (rankSources_sample_size_guard builtin_DEFAULT_SOURCES newService
           [mkCall 1 "kuwo" false 0; mkCall 2 "kuwo" false 0; mkCall 3 "kuwo" false 0;
            mkCall 4 "kuwo" false 0; mkCall 5 "kuwo" false 0] ["kugou"; "kuwo"] "kuwo").
  - vm_compute. repeat split; reflexivity.
  - vm_compute. discriminate.
  - simpl. auto.
Defined.

End RegistryMore.

Section RankingMore.
Import Js Ranking Runs.

(** X4: the ranking is a rearrangement of the reliable candidates (of the
    default sources when no candidate is given): nothing is added, nothing
    reliable is lost, nothing is repeated that was not repeated. *)
Theorem rankSources_permutes_reliable (defaults : list string) (reg : Registry)
    (sources : list string) :
  let candidates := match sources with [] => defaults | _ => sources end in
  Permutation (rankSources defaults reg sources) (List.filter (reliable reg) candidates)
  /\ (length (rankSources defaults reg sources) <= length candidates)%nat
  /\ (List.NoDup candidates -> List.NoDup (rankSources defaults reg sources)).
Proof.
  intros candidates.
  assert (Hperm : Permutation (rankSources defaults reg sources)
                    (List.filter (reliable reg) candidates))
    by apply sort_Permutation.
  split; [exact Hperm|]. split.
  - rewrite (Permutation_length Hperm). apply List.filter_length_le.
  - intros Hnodup. apply (Permutation_NoDup (Permutation_sym Hperm)).
    now apply List.NoDup_filter.
Qed.

(** X5: the best source is a candidate (a default source when no candidate
    is given) that passes the reliability filter, and it is [null] exactly
    when no candidate passes. *)
Theorem getBestSource_reliable_candidate (defaults : list string) (reg : Registry)
    (sources : list string) :
  let candidates := match sources with [] => defaults | _ => sources end in
  (forall best, getBestSource defaults reg sources = Some best ->
                In best candidates /\ reliable reg best = true)
  /\ (getBestSource defaults reg sources = None
      <-> forall s, In s candidates -> reliable reg s = false).
Proof.
  intros candidates. unfold getBestSource. split.
  - intros best Hbest.
    destruct (rankSources defaults reg sources) as [|s rest] eqn:Hrank; [discriminate|].
    injection Hbest as ->.
    apply (rankSources_In defaults reg sources best). rewrite Hrank. now left.
  - split.
    + intros Hnone s Hin. destruct (reliable reg s) eqn:Hrel; [|reflexivity].
      assert (Hs : In s (rankSources defaults reg sources))
        by (apply rankSources_In; auto).
      destruct (rankSources defaults reg sources); [destruct Hs|discriminate].
    + intros Hall.
      destruct (rankSources defaults reg sources) as [|s rest] eqn:Hrank; [reflexivity|].
      assert (Hs : In s (rankSources defaults reg sources)) by (rewrite Hrank; now left).
      apply rankSources_In in Hs as [Hin Hrel].
      rewrite (Hall s Hin) in Hrel. discriminate.
Qed.

(** X6: on every network other than ['4g'], ['3g'] and ['2g'] the answer
    of [adjustSourcesForNetwork] is the ranking of [rankSources]; on ['4g'] it
    is a rearrangement of that ranking, so no source is dropped. *)
Theorem adjustSourcesForNetwork_keeps_ranked (defaults : list string) (reg : Registry)
    (sources : list string) :
  (forall net,
      net <> "4g"%string -> net <> "3g"%string -> net <> "2g"%string ->
      adjustSourcesForNetwork defaults reg sources net = rankSources defaults reg sources)
  /\ Permutation (adjustSourcesForNetwork defaults reg sources "4g")
       (rankSources defaults reg sources).
Proof.
  split.
  - intros net H4 H3 H2. unfold adjustSourcesForNetwork.
    destruct (String.eqb_spec net "wifi"); [reflexivity|].
    destruct (String.eqb_spec net "4g"); [contradiction|].
    destruct (String.eqb_spec net "3g"); [contradiction|].
    destruct (String.eqb_spec net "2g"); [contradiction|]. reflexivity.
  - unfold adjustSourcesForNetwork. simpl String.eqb. cbv iota.
    set (scored := List.map _ (rankSources defaults reg sources)).
    rewrite (Permutation_map fst (sort_Permutation _ scored)).
    unfold scored. rewrite List.map_map.
    rewrite <- (List.map_id (rankSources defaults reg sources)) at 2.
    apply Permutation_refl'. apply List.map_ext. intros s.
    destruct (reg !! s) as [stats|]; [|reflexivity].
    now destruct ((90 <? qualityScore stats)%float && (500 <? avgResponseTime stats)%float).
Qed.

Lemma adjustSourcesForNetwork_keeps_ranked_witness :
  adjustSourcesForNetwork builtin_DEFAULT_SOURCES newService ["kuwo"; "migu"] "5g"
  = rankSources builtin_DEFAULT_SOURCES newService ["kuwo"; "migu"].
Proof.
  apply (proj1 (adjustSourcesForNetwork_keeps_ranked builtin_DEFAULT_SOURCES newService
                  ["kuwo"; "migu"])); discriminate.
Defined.

Lemma defaultQuality_absent table source :
  ~ In source (List.map fst table) -> defaultQuality table source = None.
Proof.
  induction table as [|[k q] rest IH]; simpl; [reflexivity|].
  intros Hnot. destruct (String.eqb_spec k source) as [->|Hne]; [tauto|].
  apply IH. tauto.
Qed.

(** Seeding a table without repeated sources. *)
Lemma seed_lookup table (reg : Registry) source :
  List.NoDup (List.map fst table) ->
  fold_left (fun r kq => <[fst kq := zeroStats (snd kq)]> r) table reg !! source
  = match defaultQuality table source with
    | Some q => Some (zeroStats q)
    | None => reg !! source
    end.
Proof.
  revert reg. induction table as [|[k q] rest IH]; intros reg Hnodup; simpl; [reflexivity|].
  inversion Hnodup as [|? ? Hnot Hrest]; subst.
  rewrite (IH _ Hrest).
  destruct (String.eqb_spec k source) as [->|Hne].
  - rewrite (defaultQuality_absent rest source Hnot). apply lookup_insert_eq.
  - destruct (defaultQuality rest source); [reflexivity|]. now apply lookup_insert_ne.
Qed.

Lemma DEFAULT_QUALITY_SCORES_NoDup : List.NoDup (List.map fst DEFAULT_QUALITY_SCORES).
Proof.
  simpl. repeat (constructor; [simpl; intuition discriminate|]). constructor.
Qed.



(** X8: [resetSourceStats()] without a source zeroes the nine sources of
    the table of default quality scores, each with its score of the table,
    and leaves the entry of every other source as it is, statistics
    included. An empty [source] counts as none. *)
Theorem resetSourceStats_all_keeps_unknown (reg : Registry) :
  (forall source q,
      defaultQuality DEFAULT_QUALITY_SCORES source = Some q ->
      resetSourceStats reg None !! source = Some (zeroStats q))
  /\ (forall source,
      defaultQuality DEFAULT_QUALITY_SCORES source = None ->
      resetSourceStats reg None !! source = reg !! source)
  /\ resetSourceStats reg (Some ""%string) = resetSourceStats reg None.
Proof.
  assert (Hseed : forall source,
            resetSourceStats reg None !! source
            = match defaultQuality DEFAULT_QUALITY_SCORES source with
              | Some q => Some (zeroStats q)
              | None => reg !! source
              end).
  { intros source.
    exact (seed_lookup DEFAULT_QUALITY_SCORES reg source DEFAULT_QUALITY_SCORES_NoDup). }
  split; [|split].
  - intros source q Hq. now rewrite Hseed, Hq.
  - intros source Hq. now rewrite Hseed, Hq.
  - reflexivity.
Qed.

Lemma resetSourceStats_all_keeps_unknown_witness :
  resetSourceStats (recordSourceResult newService 1 "netease" false 0) None !! "netease"
  = recordSourceResult newService 1 "netease" false 0 !! "netease".
Proof.
  apply (proj1 (proj2 (resetSourceStats_all_keeps_unknown
                         (recordSourceResult newService 1 "netease" false 0)))).
  reflexivity.
Defined.

End RankingMore.

(** ** More on the cache service *)

Section CacheMore.
Import CacheService CacheRuns.
Context {Payload : Type}.
Variable JSON_stringify : Value Payload -> option string.
Variable JSON_parse : string -> option (Value Payload).
Implicit Types (cs : State Payload) (key : string).

(** The whole answer of a [get] that finds a live entry in memory. *)
Lemma get_localHit_full cs now key reply later e :
  LRUCache.find key (memoryCache cs) = Some e ->
  LRUCache.isStale now e = false ->
  get JSON_parse cs now key reply later
  = (LRUCache.value e,
     countHit (withMemory cs
       (LRUCache.mkEntry key (LRUCache.value e) (LRUCache.ttl e)
          (if LRUCache.ttl e =? 0 then 0 else now)
        :: LRUCache.remove key (memoryCache cs))),
     []).
Proof.
  intros Hfind Hlive. unfold get, LRUCache.get. now rewrite Hfind, Hlive.
Qed.



(** The time to live, in milliseconds, of the entry that [set] writes. *)
Lemma set_ttl_nonzero options :
  (if noTtl options
   then TTL (priority (spread defaultOptions options))
   else ttl (spread defaultOptions options)) * 1000 <> 0.
Proof.
  destruct options as [[[t|] l p]|]; simpl.
  - destruct (Z.eqb_spec t 0) as [Hz|Hnz].
    + destruct p as [[| |]|]; simpl; lia.
    + lia.
  - destruct p as [[| |]|]; simpl; lia.
  - lia.
Qed.

Lemma find_set cs now key value options :
  LRUCache.find key (memoryCache (set JSON_stringify cs now key value options).1)
  = Some (LRUCache.mkEntry key value
            ((if noTtl options
              then TTL (priority (spread defaultOptions options))
              else ttl (spread defaultOptions options)) * 1000)
            now).
Proof.
  rewrite set_memory, find_set_same.
  destruct (Z.eqb_spec ((if noTtl options
                         then TTL (priority (spread defaultOptions options))
                         else ttl (spread defaultOptions options)) * 1000) 0) as [Hz|_];
    [|reflexivity].
  now destruct (set_ttl_nonzero options).
Qed.

(** X9: whatever the options, a [get] that follows a [set] of the key
    within the time to live that [set] settled on returns the value that was
    set, asks nothing of Redis and counts as one hit. *)
Theorem set_get_round_trip cs now later key value options reply answered :
  later - now
  <= (if noTtl options
      then TTL (priority (spread defaultOptions options))
      else ttl (spread defaultOptions options)) * 1000 ->
  (get JSON_parse (set JSON_stringify cs now key value options).1 later key reply answered).1.1
  = value
  /\ (get JSON_parse (set JSON_stringify cs now key value options).1 later key reply answered).2
     = []
  /\ hits (stats (get JSON_parse (set JSON_stringify cs now key value options).1
                    later key reply answered).1.2)
     = (hits (stats cs) + 1)%N
  /\ misses (stats (get JSON_parse (set JSON_stringify cs now key value options).1
                      later key reply answered).1.2)
     = misses (stats cs).
Proof.
  intros Hwithin.
  pose proof (find_set cs now key value options) as Hfind.
  set (T := (if noTtl options
             then TTL (priority (spread defaultOptions options))
             else ttl (spread defaultOptions options)) * 1000) in *.
  assert (Hlive : LRUCache.isStale later (LRUCache.mkEntry key value T now) = false).
  { unfold LRUCache.isStale. simpl.
    destruct (T =? 0); [reflexivity|]. destruct (now =? 0); [reflexivity|].
    simpl. apply Z.ltb_ge. lia. }
  rewrite (get_localHit_full _ later key reply answered _ Hfind Hlive). simpl.
  destruct (set_rest JSON_stringify cs now key value options) as (_ & _ & ->). auto.
Qed.


(** X11: reading an entry restarts its age. A [get] within the time to
    live after the [set], followed by a [get] within the time to live after
    the first [get], returns the value, however long after the [set]. *)
Theorem get_restarts_age cs t0 t1 t2 key value options reply1 answered1 reply2 answered2 :
  t1 - t0
  <= (if noTtl options
      then TTL (priority (spread defaultOptions options))
      else ttl (spread defaultOptions options)) * 1000 ->
  t2 - t1
  <= (if noTtl options
      then TTL (priority (spread defaultOptions options))
      else ttl (spread defaultOptions options)) * 1000 ->
  (get JSON_parse
     (get JSON_parse (set JSON_stringify cs t0 key value options).1
        t1 key reply1 answered1).1.2
     t2 key reply2 answered2).1.1
  = value.
Proof.
  intros Hfirst Hsecond.
  pose proof (find_set cs t0 key value options) as Hfind.
  pose proof (set_ttl_nonzero options) as Hnz.
  set (T := (if noTtl options
             then TTL (priority (spread defaultOptions options))
             else ttl (spread defaultOptions options)) * 1000) in *.
  assert (Hlive : forall start later, later - start <= T ->
            LRUCache.isStale later (LRUCache.mkEntry key value T start) = false).
  { intros start later Hle. unfold LRUCache.isStale. simpl.
    destruct (T =? 0); [reflexivity|]. destruct (start =? 0); [reflexivity|].
    simpl. apply Z.ltb_ge. lia. }
  set (cs2 := (get JSON_parse (set JSON_stringify cs t0 key value options).1
                 t1 key reply1 answered1).1.2).
  assert (Hfind2 : LRUCache.find key (memoryCache cs2)
                   = Some (LRUCache.mkEntry key value T t1)).
  { unfold cs2.
    rewrite (get_localHit_full _ t1 key reply1 answered1 _ Hfind (Hlive t0 t1 Hfirst)).
    simpl. rewrite String.eqb_refl.
    destruct (Z.eqb_spec T 0) as [|_]; [contradiction|reflexivity]. }
  now destruct (get_localHit JSON_parse cs2 t2 key reply2 answered2 _ Hfind2
                  (Hlive t1 t2 Hsecond)) as (Hvalue & _).
Qed.

End CacheMore.

Section CacheMoreWitnesses.
Import CacheService CacheRuns.

Lemma set_get_round_trip_witness :
  (get (fun _ => None)
     (set (fun _ => None) (@newService string false) 5 "match:1:kugou" (Data "url"%string)
        (Some (mkPartial (Some 3600) None (Some NORMAL)))).1
     3600005 "match:1:kugou" Rejected 3600005).1.1
  = Data "url"%string.
Proof.
  refine (proj1 (set_get_round_trip (fun _ => None) (fun _ => None)
                   (@newService string false) 5 3600005 "match:1:kugou"
                   (Data "url"%string) (Some (mkPartial (Some 3600) None (Some NORMAL)))
                   Rejected 3600005 _)).
  simpl. lia.
Defined.


Lemma get_restarts_age_witness :
  (get (fun _ => None)
     (get (fun _ => None)
        (set (fun _ => None) (@newService string false) 1 "k" (Data "v"%string) None).1
        3000000 "k" Rejected 3000000).1.2
     6000000 "k" Rejected 6000000).1.1
  = Data "v"%string.
Proof.
  refine (get_restarts_age (fun _ => None) (fun _ => None)
            (@newService string false) 1 3000000 6000000 "k"
            (Data "v"%string) None Rejected 3000000 Rejected 6000000 _ _);
    simpl; lia.
Defined.

End CacheMoreWitnesses.

Section CacheTiers.
Import CacheService CacheRuns.
Context {Payload : Type}.
Variable JSON_stringify : Value Payload -> option string.
Variable JSON_parse : string -> option (Value Payload).
Implicit Types (cs : State Payload) (key : string).

Lemma remove_remove key (es : list (LRUCache.Entry (Value Payload))) :
  LRUCache.remove key (LRUCache.remove key es) = LRUCache.remove key es.
Proof.
  unfold LRUCache.remove. rewrite filter_twice. apply List.filter_ext.
  intros e. now destruct (String.eqb (LRUCache.key e) key).
Qed.

Lemma LRUCache_get_miss now key (es : list (LRUCache.Entry (Value Payload))) :
  (forall e, LRUCache.find key es = Some e -> LRUCache.isStale now e = true) ->
  exists memory, LRUCache.get now key es = (None, memory)
                 /\ LRUCache.find key memory = None.
Proof.
  intros Hstale. unfold LRUCache.get.
  destruct (LRUCache.find key es) as [e|] eqn:Hfind.
  - rewrite (Hstale e eq_refl). eexists. split; [reflexivity|apply find_remove_eq].
  - eexists. split; [reflexivity|exact Hfind].
Qed.

Lemma not_localHit_stale cs now key :
  ~ localHit cs now key ->
  forall e, LRUCache.find key (memoryCache cs) = Some e -> LRUCache.isStale now e = true.
Proof.
  intros Hlocal e Hfind. destruct (LRUCache.isStale now e) eqn:Hstale; [reflexivity|].
  exfalso. apply Hlocal. exists e. auto.
Qed.

(** X12: [delete(key)] removes the entry of [key] from memory and no
    other, leaves the counters, sends one [DEL] to Redis when Redis is in
    use and nothing otherwise, does nothing more when repeated, and a [get]
    of the key afterwards returns [null] unless Redis has the key. *)
Theorem delete_removes_only_key cs key :
  LRUCache.find key (memoryCache (delete cs key).1) = None
  /\ (forall other, other <> key ->
        LRUCache.find other (memoryCache (delete cs key).1)
        = LRUCache.find other (memoryCache cs))
  /\ stats (delete cs key).1 = stats cs
  /\ (delete cs key).2 = (if redisAvailable cs && redisClient cs then [DEL [key]] else [])
  /\ (delete (delete cs key).1 key).1 = (delete cs key).1
  /\ (forall now reply answered,
        ~ sharedHit JSON_parse cs reply ->
        (get JSON_parse (delete cs key).1 now key reply answered).1.1 = Null).
Proof.
  assert (Hstate : (delete cs key).1
                   = withMemory cs (LRUCache.remove key (memoryCache cs))).
  { unfold delete. simpl. now destruct (redisAvailable cs && redisClient cs). }
  rewrite Hstate.
  split; [|split; [|split; [|split; [|split]]]].
  - apply find_remove_eq.
  - intros other Hne. now apply find_remove_ne.
  - reflexivity.
  - unfold delete. simpl. now destruct (redisAvailable cs && redisClient cs).
  - unfold delete. simpl.
    destruct (redisAvailable cs && redisClient cs); simpl;
      unfold withMemory; simpl; now rewrite remove_remove.
  - intros now reply answered Hshared.
    apply get_miss.
    + intros (e & Hfind & _). simpl in Hfind. now rewrite find_remove_eq in Hfind.
    + now apply (sharedHit_flags JSON_parse cs).
Qed.

(** X13: a [get] that finds nothing live in memory and gets a string that
    parses from Redis returns the parsed value and keeps it in memory for
    five minutes: a [get] within 300 seconds of the answer returns the same
    value without asking Redis. *)
Theorem get_promotes_shared_hit cs now key s v answered :
  ~ localHit cs now key ->
  redisAvailable cs = true ->
  redisClient cs = true ->
  s <> ""%string ->
  JSON_parse s = Some v ->
  (get JSON_parse cs now key (Resolved (Some s)) answered).1.1 = v
  /\ (get JSON_parse cs now key (Resolved (Some s)) answered).2 = [GET key]
  /\ forall later reply answered',
      later - answered <= 300000 ->
      (get JSON_parse (get JSON_parse cs now key (Resolved (Some s)) answered).1.2
         later key reply answered').1.1 = v
      /\ (get JSON_parse (get JSON_parse cs now key (Resolved (Some s)) answered).1.2
            later key reply answered').2 = [].
Proof.
  intros Hlocal Hav Hcl Hs Hparse.
  destruct (LRUCache_get_miss now key (memoryCache cs) (not_localHit_stale cs now key Hlocal))
    as (memory & Hget & _).
  assert (Hfull : get JSON_parse cs now key (Resolved (Some s)) answered
                  = (v,
                     countHit (withMemory (withMemory cs memory)
                       (LRUCache.set MEMORY_MAX answered key v MEMORY_TTL memory)),
                     [GET key])).
  { unfold get. rewrite Hget. simpl. rewrite Hav, Hcl. simpl.
    destruct (String.eqb_spec s ""); [contradiction|]. now rewrite Hparse. }
  rewrite Hfull. split; [reflexivity|]. split; [reflexivity|].
  intros later reply answered' Hwithin. simpl fst. simpl snd.
  assert (Hfind : LRUCache.find key
                    (memoryCache (countHit (withMemory (withMemory cs memory)
                       (LRUCache.set MEMORY_MAX answered key v MEMORY_TTL memory))))
                  = Some (LRUCache.mkEntry key v 300000 answered)).
  { simpl. apply find_set_same. }
  assert (Hlive : LRUCache.isStale later (LRUCache.mkEntry key v 300000 answered) = false)
    by (apply (isStale_within later key v 300000 answered); exact Hwithin).
  rewrite (get_localHit_full JSON_parse _ later key reply answered' _ Hfind Hlive).
  split; reflexivity.
Qed.

(** X14: a [get] that finds nothing live in memory and gets from Redis a
    string that does not parse returns [null], counts one miss, asks Redis to
    delete the key, and keeps nothing in memory for the key. *)
Theorem get_corrupt_shared_entry cs now key s answered :
  ~ localHit cs now key ->
  redisAvailable cs = true ->
  redisClient cs = true ->
  s <> ""%string ->
  JSON_parse s = None ->
  (get JSON_parse cs now key (Resolved (Some s)) answered).1.1 = Null
  /\ (get JSON_parse cs now key (Resolved (Some s)) answered).2 = [GET key; DEL [key]]
  /\ LRUCache.find key
       (memoryCache (get JSON_parse cs now key (Resolved (Some s)) answered).1.2) = None
  /\ hits (stats (get JSON_parse cs now key (Resolved (Some s)) answered).1.2)
     = hits (stats cs)
  /\ misses (stats (get JSON_parse cs now key (Resolved (Some s)) answered).1.2)
     = (misses (stats cs) + 1)%N.
Proof.
  intros Hlocal Hav Hcl Hs Hparse.
  destruct (LRUCache_get_miss now key (memoryCache cs) (not_localHit_stale cs now key Hlocal))
    as (memory & Hget & Hnone).
  assert (Hfull : get JSON_parse cs now key (Resolved (Some s)) answered
                  = (Null, countMiss (withMemory cs memory), [GET key; DEL [key]])).
  { unfold get. rewrite Hget. simpl. rewrite Hav, Hcl. simpl.
    destruct (String.eqb_spec s ""); [contradiction|]. now rewrite Hparse. }
  rewrite Hfull. simpl. auto.
Qed.

(** X15: within the time to live of a [set], [has(key)] is [true] for a
    value other than [null] and [false] for a cached [null], and either way it
    counts as one hit, as the [get] it makes. *)
Theorem has_after_set cs now later key value options reply answered :
  later - now
  <= (if noTtl options
      then TTL (priority (spread defaultOptions options))
      else ttl (spread defaultOptions options)) * 1000 ->
  (has JSON_parse (set JSON_stringify cs now key value options).1
     later key reply answered).1.1
  = match value with Null => false | Data _ => true end
  /\ hits (stats (has JSON_parse (set JSON_stringify cs now key value options).1
                    later key reply answered).1.2)
     = (hits (stats cs) + 1)%N
  /\ misses (stats (has JSON_parse (set JSON_stringify cs now key value options).1
                      later key reply answered).1.2)
     = misses (stats cs).
Proof.
  intros Hwithin.
  pose proof (find_set JSON_stringify cs now key value options) as Hfind.
  set (T := (if noTtl options
             then TTL (priority (spread defaultOptions options))
             else ttl (spread defaultOptions options)) * 1000) in *.
  assert (Hlive : LRUCache.isStale later (LRUCache.mkEntry key value T now) = false).
  { unfold LRUCache.isStale. simpl.
    destruct (T =? 0); [reflexivity|]. destruct (now =? 0); [reflexivity|].
    simpl. apply Z.ltb_ge. lia. }
  unfold has.
  rewrite (get_localHit_full JSON_parse _ later key reply answered _ Hfind Hlive). simpl.
  destruct (set_rest JSON_stringify cs now key value options) as (_ & _ & ->). auto.
Qed.

End CacheTiers.

Section CacheTiersWitnesses.
Import CacheService CacheRuns.

Lemma delete_removes_only_key_witness :
  (get (fun _ => None)
     (delete (set (fun _ => None) (@newService string false) 1 "k" (Data "v"%string) None).1
        "k").1
     2 "k" Rejected 2).1.1
  = Null.
Proof.
  refine (proj2 (proj2 (proj2 (proj2 (proj2
    (delete_removes_only_key (fun _ => None)
       (set (fun _ => None) (@newService string false) 1 "k" (Data "v"%string) None).1
       "k"))))) 2 Rejected 2 _).
  intros (Hav & _). discriminate.
Defined.

Lemma get_promotes_shared_hit_witness :
  (get (fun s => if String.eqb s "7" then Some (Data 7%nat) else None)
     (mkState [] true true (mkCounters 0 0 0 0)) 10 "k" (Resolved (Some "7"%string)) 12).1.1
  = Data 7%nat.
Proof.
  refine (proj1 (get_promotes_shared_hit
                   (fun s => if String.eqb s "7" then Some (Data 7%nat) else None)
                   (mkState [] true true (mkCounters 0 0 0 0)) 10 "k" "7" (Data 7%nat) 12
                   _ _ _ _ _)).
  - intros (e & Hfind & _). discriminate.
  - reflexivity.
  - reflexivity.
  - discriminate.
  - reflexivity.
Defined.

Lemma get_corrupt_shared_entry_witness :
  (get (fun _ : string => @None (Value nat))
     (mkState [] true true (mkCounters 0 0 0 0)) 10 "k" (Resolved (Some "{"%string)) 12).2
  = [GET "k"; DEL ["k"%string]].
Proof.
  refine (proj1 (proj2 (get_corrupt_shared_entry (fun _ : string => @None (Value nat))
                          (mkState [] true true (mkCounters 0 0 0 0)) 10 "k" "{" 12
                          _ _ _ _ _))).
  - intros (e & Hfind & _). discriminate.
  - reflexivity.
  - reflexivity.
  - discriminate.
  - reflexivity.
Defined.

Lemma has_after_set_witness :
  (has (fun _ => None)
     (set (fun _ => None) (@newService string false) 1 "k" Null None).1
     2 "k" Rejected 2).1.1
  = false.
Proof.
  refine (proj1 (has_after_set (fun _ => None) (fun _ => None)
                   (@newService string false) 1 2 "k" Null None Rejected 2 _)).
  simpl. lia.
Defined.

End CacheTiersWitnesses.

(** ** The capacity of the memory cache *)

Section CapacityFacts.
Import CacheInvariants.
Context {V : Type}.
Implicit Types (es : list (LRUCache.Entry V)) (e : LRUCache.Entry V) (k : string).

Lemma keys_filter_NoDup (f : LRUCache.Entry V -> bool) es :
  List.NoDup (List.map LRUCache.key es) ->
  List.NoDup (List.map LRUCache.key (List.filter f es)).
Proof.
  induction es as [|e es IH]; simpl; intros Hnodup; [constructor|].
  inversion Hnodup as [|? ? Hnot Hrest]; subst.
  destruct (f e); simpl; [|now apply IH].
  constructor; [|now apply IH].
  intros Hin. apply Hnot. apply in_map_iff in Hin as (x & Hkey & Hx).
  apply List.filter_In in Hx as [Hx _]. apply in_map_iff. eauto.
Qed.

Lemma key_not_in_remove k es : ~ In k (List.map LRUCache.key (LRUCache.remove k es)).
Proof.
  intros Hin. apply in_map_iff in Hin as (x & Hkey & Hx).
  apply List.filter_In in Hx as [_ Hx]. rewrite Hkey, String.eqb_refl in Hx. discriminate.
Qed.

Lemma find_None_not_in k es :
  LRUCache.find k es = None -> ~ In k (List.map LRUCache.key es).
Proof.
  induction es as [|e es IH]; simpl; [tauto|].
  destruct (String.eqb_spec (LRUCache.key e) k) as [Heq|Hne]; [discriminate|].
  intros Hnone [Hk|Hin]; [contradiction|]. now apply IH.
Qed.

Lemma remove_shorter k es e :
  LRUCache.find k es = Some e ->
  (length (LRUCache.remove k es) < length es)%nat.
Proof.
  unfold LRUCache.remove.
  induction es as [|x es IH]; simpl; [discriminate|].
  destruct (String.eqb_spec (LRUCache.key x) k) as [Heq|Hne]; simpl.
  - intros _. pose proof (List.filter_length_le
      (fun e => negb (String.eqb (LRUCache.key e) k)) es). lia.
  - intros Hfind. specialize (IH Hfind). lia.
Qed.

Lemma In_removelast {A} (x : A) (l : list A) : In x (removelast l) -> In x l.
Proof.
  induction l as [|a l IH]; simpl; [tauto|].
  destruct l as [|b l]; [tauto|]. intros [Hx|Hin]; [now left|right; now apply IH].
Qed.

Lemma removelast_shorter {A} (l : list A) :
  l <> [] -> S (length (removelast l)) = length l.
Proof.
  destruct l as [|a l]; [congruence|]. intros Hne.
  rewrite (app_removelast_last a Hne) at 2. rewrite length_app. simpl. lia.
Qed.

Lemma keys_removelast_NoDup es :
  List.NoDup (List.map LRUCache.key es) ->
  List.NoDup (List.map LRUCache.key (removelast es)).
Proof.
  destruct es as [|e es]; [constructor|]. intros Hnodup.
  assert (Hne : e :: es <> []) by discriminate.
  rewrite (app_removelast_last e Hne), List.map_app in Hnodup.
  now apply List.NoDup_app_remove_r in Hnodup.
Qed.

Lemma wellFormed_remove k es : wellFormed es -> wellFormed (LRUCache.remove k es).
Proof.
  intros [Hnodup Hsize]. split.
  - now apply keys_filter_NoDup.
  - unfold LRUCache.size in *.
    pose proof (List.filter_length_le
      (fun e => negb (String.eqb (LRUCache.key e) k)) es).
    unfold LRUCache.remove. lia.
Qed.

Lemma wellFormed_front k (v : V) ttl start es e :
  wellFormed es ->
  LRUCache.find k es = Some e ->
  wellFormed (LRUCache.mkEntry k v ttl start :: LRUCache.remove k es).
Proof.
  intros [Hnodup Hsize] Hfind. split.
  - simpl. constructor; [apply key_not_in_remove|now apply keys_filter_NoDup].
  - unfold LRUCache.size in *. cbn [length].
    pose proof (remove_shorter k es e Hfind). lia.
Qed.

Lemma wellFormed_set now k (v : V) ttl es :
  wellFormed es -> wellFormed (LRUCache.set CacheService.MEMORY_MAX now k v ttl es).
Proof.
  intros Hwf. unfold LRUCache.set.
  destruct (LRUCache.find k es) as [e|] eqn:Hfind.
  - now apply (wellFormed_front k v ttl _ es e).
  - destruct Hwf as [Hnodup Hsize]. pose proof (find_None_not_in k es Hfind) as Hnot.
    unfold LRUCache.size, CacheService.MEMORY_MAX in *.
    destruct (N.eqb_spec (N.of_nat (length es)) 1000) as [Hfull|Hroom].
    + split.
      * simpl. constructor; [|now apply keys_removelast_NoDup].
        intros Hin. apply Hnot.
        apply in_map_iff in Hin as (y & Hkey & Hy). apply In_removelast in Hy.
        apply in_map_iff. eauto.
      * assert (Hne : es <> []) by (intros ->; simpl in Hfull; lia).
        pose proof (removelast_shorter es Hne) as Hlen.
        unfold LRUCache.size, CacheService.MEMORY_MAX. cbn [length]. lia.
    + split; [simpl; now constructor|].
      unfold LRUCache.size, CacheService.MEMORY_MAX. cbn [length]. lia.
Qed.

Lemma wellFormed_get now k es : wellFormed es -> wellFormed (LRUCache.get now k es).2.
Proof.
  intros Hwf. unfold LRUCache.get.
  destruct (LRUCache.find k es) as [e|] eqn:Hfind; [|exact Hwf].
  destruct (LRUCache.isStale now e); simpl.
  - now apply wellFormed_remove.
  - now apply (wellFormed_front k _ _ _ es e).
Qed.

Lemma wellFormed_purge prefix ks es :
  wellFormed es -> wellFormed (CacheRuns.purge prefix ks es).
Proof.
  intros [Hnodup Hsize]. rewrite purge_filter. split.
  - now apply keys_filter_NoDup.
  - unfold LRUCache.size in *.
    pose proof (List.filter_length_le
      (fun e => negb (existsb (fun k => Js.startsWith k prefix
                                        && String.eqb (LRUCache.key e) k) ks)) es).
    lia.
Qed.

End CapacityFacts.

Section CapacityOfService.
Import CacheService CacheRuns CacheInvariants.
Context {Payload : Type}.
Variable JSON_stringify : Value Payload -> option string.
Variable JSON_parse : string -> option (Value Payload).

(** X16: the memory cache never holds two entries for one key nor more
    than 1000 entries. A service that has just been constructed is so, and
    [set], [get], [delete] and [deleteByPrefix] keep it so, whatever Redis
    answers. *)
Theorem memory_cache_stays_within_capacity :
  (forall client, wellFormed (memoryCache (@newService Payload client)))
  /\ (forall cs : State Payload,
      wellFormed (memoryCache cs) ->
      (forall now key value options,
          wellFormed (memoryCache (set JSON_stringify cs now key value options).1))
      /\ (forall now key reply answered,
          wellFormed (memoryCache (get JSON_parse cs now key reply answered).1.2))
      /\ (forall key, wellFormed (memoryCache (delete cs key).1))
      /\ (forall now prefix reply,
          wellFormed (memoryCache (deleteByPrefix cs now prefix reply).1))).
Proof.
  split.
  - intros client. split; [constructor|]. vm_compute. discriminate.
  - intros cs Hwf. split; [|split; [|split]].
    + intros. rewrite set_memory. now apply wellFormed_set.
    + intros now key reply answered.
      pose proof (wellFormed_get now key (memoryCache cs) Hwf) as Hmemory.
      unfold get. destruct (LRUCache.get now key (memoryCache cs)) as [[v|] memory];
        simpl in Hmemory; simpl; [exact Hmemory|].
      destruct (redisAvailable cs && redisClient cs); [|exact Hmemory].
      destruct reply as [[s|]|]; try exact Hmemory.
      destruct (String.eqb s ""); [exact Hmemory|].
      destruct (JSON_parse s); [|exact Hmemory].
      simpl. now apply wellFormed_set.
    + intros key. unfold delete. simpl.
      destruct (redisAvailable cs && redisClient cs); simpl; now apply wellFormed_remove.
    + intros. rewrite deleteByPrefix_memory. now apply wellFormed_purge.
Qed.

End CapacityOfService.

Section CapacityWitnesses.
Import CacheService CacheRuns CacheInvariants.

Lemma memory_cache_stays_within_capacity_witness :
  wellFormed
    (memoryCache
       (set (fun _ => None) (@newService string false) 1 "k" (Data "v"%string) None).1).
Proof.
  refine (proj1 (proj2 (memory_cache_stays_within_capacity (fun _ => None) (fun _ => None))
                   (@newService string false) _) 1 "k"%string (Data "v"%string) None).
  split; [constructor|]. vm_compute. discriminate.
Defined.

End CapacityWitnesses.

(** ** More on the song cache *)

Section KeyFacts.
Import SongCacheService.

Lemma prefix_empty (s : string) : String.prefix "" s = true.
Proof. now destruct s. Qed.

Lemma prefix_append (p x : string) : String.prefix p (p +:+ x) = true.
Proof.
  induction p as [|c p IH]; simpl; [apply prefix_empty|].
  destruct (Ascii.ascii_dec c c); [exact IH|contradiction].
Qed.

Lemma prefix_append_same (a b c : string) :
  String.prefix (a +:+ b) (a +:+ c) = String.prefix b c.
Proof.
  induction a as [|x a IH]; simpl; [reflexivity|].
  destruct (Ascii.ascii_dec x x); [exact IH|contradiction].
Qed.

Lemma prefix_weaken (p s x : string) :
  String.prefix p s = true -> String.prefix p (s +:+ x) = true.
Proof.
  revert s. induction p as [|c p IH]; intros s; [intros _; apply prefix_empty|].
  destruct s as [|d s]; simpl; [discriminate|].
  destruct (Ascii.ascii_dec c d); [apply IH|discriminate].
Qed.

(** The keys of a song whose id starts with [id] start with the key of [id]. *)
Lemma getSongKey_startsWith (id id' : string) (source : option string) :
  Js.startsWith id' id = true ->
  Js.startsWith (getSongKey id' source) (getSongKey id None) = true.
Proof.
  unfold Js.startsWith, getSongKey, SONG_PREFIX. intros Hprefix.
  destruct source as [s|]; [destruct (String.eqb s "")|];
    rewrite prefix_append_same; try assumption.
  now apply prefix_weaken.
Qed.

End KeyFacts.

Section SongCacheMore.
Import CacheService CacheRuns SongCacheService.
Context {Payload : Type}.
Variable JSON_stringify : Value Payload -> option string.
Variable JSON_parse : string -> option (Value Payload).
Implicit Types (cs : State Payload).

Lemma clearSongCache_memory cs now id reply :
  memoryCache (clearSongCache cs now id reply).1
  = LRUCache.remove (getSourceKey id)
      (purge (getSongKey id None) (LRUCache.keys now (memoryCache cs)) (memoryCache cs)).
Proof.
  unfold clearSongCache.
  pose proof (deleteByPrefix_memory cs now (getSongKey id None) reply) as Hmemory.
  destruct (deleteByPrefix cs now (getSongKey id None) reply) as [cs1 sent1].
  simpl in Hmemory. unfold delete. simpl.
  destruct (redisAvailable cs1 && redisClient cs1); simpl; now rewrite Hmemory.
Qed.

Lemma clearSongCache_flags cs now id reply :
  redisAvailable (clearSongCache cs now id reply).1 = redisAvailable cs
  /\ redisClient (clearSongCache cs now id reply).1 = redisClient cs.
Proof.
  unfold clearSongCache.
  destruct (deleteByPrefix_rest cs now (getSongKey id None) reply) as (Hav & Hcl & _).
  destruct (deleteByPrefix cs now (getSongKey id None) reply) as [cs1 sent1].
  simpl in Hav, Hcl. unfold delete. simpl.
  destruct (redisAvailable cs1 && redisClient cs1); simpl; auto.
Qed.

Lemma find_remove_inv key key' (es : list (LRUCache.Entry (Value Payload))) e :
  LRUCache.find key (LRUCache.remove key' es) = Some e -> LRUCache.find key es = Some e.
Proof.
  destruct (String.eqb_spec key key') as [->|Hne].
  - now rewrite find_remove_eq.
  - now rewrite find_remove_ne.
Qed.

Lemma not_localHit_after_clearSongCache cs now id reply key later :
  Js.startsWith key (getSongKey id None) = true \/ key = getSourceKey id ->
  now <= later ->
  ~ localHit (clearSongCache cs now id reply).1 later key.
Proof.
  intros Hkey Hle (e & Hfind & Hlive).
  rewrite clearSongCache_memory in Hfind. destruct Hkey as [Hkey| ->].
  - apply find_remove_inv in Hfind.
    apply purge_keys_stale in Hfind; [|assumption].
    rewrite (isStale_later now later e Hle Hfind) in Hlive. discriminate.
  - now rewrite find_remove_eq in Hfind.
Qed.

(** X17: after [clearSongCache(id)], and unless Redis holds the key, the
    getters return [null] for the song info, for the song info of every
    source and for the source match result of [id]; and also for the song
    info of every other song whose id starts with [id], since the keys are
    deleted by the prefix ["song:" + id]. *)
Theorem clearSongCache_clears_song cs now id reply later answer answered :
  now <= later ->
  ~ sharedHit JSON_parse cs answer ->
  (forall id' source,
      Js.startsWith id' id = true ->
      (getSongInfo JSON_parse (clearSongCache cs now id reply).1
         later id' answer answered).1.1 = Null
      /\ (getSongSourceInfo JSON_parse (clearSongCache cs now id reply).1
            later id' source answer answered).1.1 = Null)
  /\ (getSourceMatchResult JSON_parse (clearSongCache cs now id reply).1
        later id answer answered).1.1 = Null.
Proof.
  intros Hle Hshared.
  destruct (clearSongCache_flags cs now id reply) as [Hav Hcl].
  assert (Hshared' : ~ sharedHit JSON_parse (clearSongCache cs now id reply).1 answer)
    by now apply (sharedHit_flags JSON_parse cs).
  split.
  - intros id' source Hprefix. split.
    + apply get_miss; [|assumption].
      apply not_localHit_after_clearSongCache; [|assumption].
      left. now apply getSongKey_startsWith.
    + apply get_miss; [|assumption].
      apply not_localHit_after_clearSongCache; [|assumption].
      left. now apply getSongKey_startsWith.
  - apply get_miss; [|assumption].
    apply not_localHit_after_clearSongCache; [now right|assumption].
Qed.

(** X18: [clearSongCache(id)] leaves in memory, as it was, the entry of
    every key that neither starts with ["song:" + id] nor is ["source:" + id]:
    the source match results of the other songs, and the entries cached under
    other prefixes. *)
Theorem clearSongCache_keeps_others cs now id reply key :
  Js.startsWith key (getSongKey id None) = false ->
  key <> getSourceKey id ->
  LRUCache.find key (memoryCache (clearSongCache cs now id reply).1)
  = LRUCache.find key (memoryCache cs).
Proof.
  intros Hprefix Hne. rewrite clearSongCache_memory.
  rewrite find_remove_ne by assumption. now apply purge_other.
Qed.

(** X19: with the default options, song info cached by [cacheSongInfo] is
    returned by [getSongInfo] for a day, without asking Redis; and an empty
    [source] names the key of the song itself, so what
    [cacheSongSourceInfo(id, "", data)] caches is what [getSongInfo(id)]
    returns. *)
Theorem cacheSongInfo_round_trip cs now later id data answer answered :
  later - now <= 86400000 ->
  (getSongInfo JSON_parse (cacheSongInfo JSON_stringify cs now id data None).1
     later id answer answered).1.1 = data
  /\ (getSongInfo JSON_parse (cacheSongInfo JSON_stringify cs now id data None).1
        later id answer answered).2 = []
  /\ (getSongInfo JSON_parse
        (cacheSongSourceInfo JSON_stringify cs now id "" data None).1
        later id answer answered).1.1 = data.
Proof.
  intros Hwithin.
  assert (Hfind : LRUCache.find (getSongKey id None)
                    (memoryCache (cacheSongInfo JSON_stringify cs now id data None).1)
                  = Some (LRUCache.mkEntry (getSongKey id None) data 86400000 now)).
  { unfold cacheSongInfo. rewrite set_memory. apply find_set_same. }
  assert (Hfind' : LRUCache.find (getSongKey id None)
                     (memoryCache
                        (cacheSongSourceInfo JSON_stringify cs now id "" data None).1)
                   = Some (LRUCache.mkEntry (getSongKey id None) data 86400000 now)).
  { unfold cacheSongSourceInfo. rewrite set_memory. apply find_set_same. }
  assert (Hlive : LRUCache.isStale later
                    (LRUCache.mkEntry (getSongKey id None) data 86400000 now) = false)
    by (apply (isStale_within later _ data 86400000 now); exact Hwithin).
  unfold getSongInfo. split; [|split].
  - now rewrite (get_localHit_full JSON_parse _ later _ answer answered _ Hfind Hlive).
  - now rewrite (get_localHit_full JSON_parse _ later _ answer answered _ Hfind Hlive).
  - now rewrite (get_localHit_full JSON_parse _ later _ answer answered _ Hfind' Hlive).
Qed.

(** X20: whatever the options, a source match result is cached for at most
    one hour: [cacheSourceMatchResult] writes its entry with
    [min(duration, 3600)] seconds to live, or with the 900 seconds of the
    low priority when that is 0, and gives Redis the same number of seconds. *)
Theorem cacheSourceMatchResult_at_most_one_hour cs now id sources options :
  let seconds :=
    if Z.min (duration (spread defaultOptions options)) 3600 =? 0 then 900
    else Z.min (duration (spread defaultOptions options)) 3600 in
  LRUCache.find (getSourceKey id)
    (memoryCache (cacheSourceMatchResult JSON_stringify cs now id sources options).1)
  = Some (LRUCache.mkEntry (getSourceKey id) sources (seconds * 1000) now)
  /\ seconds <= 3600
  /\ (forall sent,
        In sent (cacheSourceMatchResult JSON_stringify cs now id sources options).2 ->
        exists serialized, sent = SET (getSourceKey id) serialized seconds).
Proof.
  intros seconds. unfold cacheSourceMatchResult.
  set (d := Z.min (duration (spread defaultOptions options)) 3600) in *.
  assert (Hd : d <= 3600) by (unfold d; lia).
  split; [|split].
  - rewrite (find_set JSON_stringify). unfold cacheOptions. simpl.
    unfold seconds. now destruct (d =? 0).
  - unfold seconds. destruct (d =? 0); lia.
  - unfold set, cacheOptions. simpl noTtl. unfold seconds.
    destruct (d =? 0); simpl;
      (destruct (useRedis (spread defaultOptions options)); simpl; [|tauto]);
      (destruct (redisAvailable cs && redisClient cs); simpl; [|tauto]);
      (destruct (JSON_stringify sources); simpl; [|tauto]);
      intros sent [<-|[]]; eauto.
Qed.

End SongCacheMore.

Section SongCacheWitnesses.
Import CacheService CacheRuns SongCacheService.

Lemma clearSongCache_clears_song_witness :
  (getSongInfo (fun _ => None)
     (clearSongCache
        (cacheSongInfo (fun _ => None) (@newService string false) 1 "10"
           (Data "ten"%string) None).1
        2 "1" Rejected).1
     3 "10" Rejected 3).1.1
  = Null.
Proof.
  refine (proj1 (proj1 (clearSongCache_clears_song (fun _ => None)
    (cacheSongInfo (fun _ => None) (@newService string false) 1 "10"
       (Data "ten"%string) None).1
    2 "1" Rejected 3 Rejected 3 _ _) "10"%string "kugou"%string _)).
  - lia.
  - intros (Hav & _). discriminate.
  - reflexivity.
Defined.

Lemma clearSongCache_keeps_others_witness :
  LRUCache.find "source:10"
    (memoryCache
       (clearSongCache
          (cacheSourceMatchResult (fun _ => None) (@newService string false) 1 "10"
             (Data "kugou"%string) None).1
          2 "1" Rejected).1)
  = LRUCache.find "source:10"
      (memoryCache
         (cacheSourceMatchResult (fun _ => None) (@newService string false) 1 "10"
            (Data "kugou"%string) None).1).
Proof.
  apply clearSongCache_keeps_others.
  - reflexivity.
  - discriminate.
Defined.

Lemma cacheSongInfo_round_trip_witness :
  (getSongInfo (fun _ => None)
     (cacheSongInfo (fun _ => None) (@newService string false) 1 "10"
        (Data "ten"%string) None).1
     86400001 "10" Rejected 86400001).1.1
  = Data "ten"%string.
Proof.
  refine (proj1 (cacheSongInfo_round_trip (fun _ => None) (fun _ => None)
    (@newService string false) 1 86400001 "10" (Data "ten"%string) Rejected 86400001 _)).
  lia.
Defined.

End SongCacheWitnesses.

(** ** The configuration and the routes *)

Section ConfigFacts.
Import Config.
Variable trim : string -> string.

Lemma split_length (v : string) : length (split v) = S (commas v).
Proof.
  induction v as [|c v IH]; simpl; [reflexivity|].
  destruct (Ascii.eqb c ","%char); simpl; [now rewrite IH|].
  destruct (split v) as [|field fields]; [discriminate|exact IH].
Qed.

Lemma join_split (v : string) : join (split v) = v.
Proof.
  induction v as [|c v IH]; [reflexivity|]. simpl split.
  destruct (Ascii.eqb_spec c ","%char) as [->|Hne].
  - pose proof (split_length v) as Hlen.
    destruct (split v) as [|field fields]; [discriminate|].
    change (join (EmptyString :: field :: fields))
      with (EmptyString +:+ "," +:+ join (field :: fields))%string.
    now rewrite IH.
  - pose proof (split_length v) as Hlen.
    destruct (split v) as [|field fields]; [discriminate|].
    destruct fields as [|field' fields].
    + simpl in *. now rewrite IH.
    + change (join (String c field :: field' :: fields))
        with (String c (field +:+ "," +:+ join (field' :: fields)))%string.
      change (join (field :: field' :: fields))
        with (field +:+ "," +:+ join (field' :: fields))%string in IH.
      now rewrite IH.
Qed.

(** X21: [parseArray] answers the default for a variable that is not set
    or empty; otherwise it answers the trimmed fields between the commas, one
    more than there are commas, and joining the fields with commas gives the
    value back. So [config.DEFAULT_SOURCES] is never an empty list. *)
Theorem parseArray_fields :
  (forall d, parseArray trim None d = d /\ parseArray trim (Some ""%string) d = d)
  /\ (forall v d,
      v <> ""%string ->
      parseArray trim (Some v) d = List.map trim (split v)
      /\ length (parseArray trim (Some v) d) = S (commas v))
  /\ (forall v, join (split v) = v)
  /\ (forall env, DEFAULT_SOURCES trim env <> []).
Proof.
  assert (Hfields : forall v d, v <> ""%string ->
            parseArray trim (Some v) d = List.map trim (split v)).
  { intros v d Hv. unfold parseArray.
    destruct (String.eqb_spec v ""); [contradiction|reflexivity]. }
  split; [|split; [|split]].
  - intros d. split; reflexivity.
  - intros v d Hv. split; [now apply Hfields|].
    rewrite (Hfields v d Hv), length_map. apply split_length.
  - apply join_split.
  - intros [v|]; [|discriminate]. unfold DEFAULT_SOURCES.
    destruct (String.eqb_spec v "") as [->|Hv]; [discriminate|].
    rewrite (Hfields v _ Hv). intros Hnil.
    apply (f_equal (@length string)) in Hnil.
    rewrite length_map, split_length in Hnil. discriminate.
Qed.

End ConfigFacts.

Section ConfigWitnesses.
Import Config.

Lemma parseArray_fields_witness :
  parseArray (fun s => s) (Some "kugou,migu"%string) []
  = List.map (fun s => s) (split "kugou,migu")
  /\ length (parseArray (fun s => s) (Some "kugou,migu"%string) []) = S (commas "kugou,migu").
Proof.
  apply (proj1 (proj2 (parseArray_fields (fun s => s)))). discriminate.
Defined.

End ConfigWitnesses.

Section RouteFacts.
Import Js Ranking Routes.

Lemma adjustSourcesForNetwork_In_ranked defaults (reg : Registry) sources net s :
  In s (adjustSourcesForNetwork defaults reg sources net) ->
  In s (rankSources defaults reg sources).
Proof.
  unfold adjustSourcesForNetwork.
  destruct (String.eqb net "wifi"); [tauto|].
  destruct (String.eqb net "4g").
  - intros Hin. apply in_map_iff in Hin as ([s' q] & Hs & Hin). simpl in Hs. subst s'.
    apply sort_In in Hin. apply in_map_iff in Hin as (x & Hx & Hin).
    destruct (reg !! x) as [stats|];
      [destruct ((90 <? qualityScore stats)%float && (500 <? avgResponseTime stats)%float)|];
      injection Hx as -> _; exact Hin.
  - destruct (String.eqb net "3g" || String.eqb net "2g"); [|tauto].
    intros Hin. now apply List.filter_In in Hin as [Hin _].
Qed.

Lemma ranked_In_adjustSourcesForNetwork defaults (reg : Registry) sources net s :
  net <> "3g"%string -> net <> "2g"%string ->
  In s (rankSources defaults reg sources) ->
  In s (adjustSourcesForNetwork defaults reg sources net).
Proof.
  intros H3 H2 Hin. unfold adjustSourcesForNetwork.
  destruct (String.eqb net "wifi"); [exact Hin|].
  destruct (String.eqb net "4g").
  - apply in_map_iff.
    exists (match reg !! s with
            | Some stats =>
                if (90 <? qualityScore stats)%float && (500 <? avgResponseTime stats)%float
                then (s, (qualityScore stats * 0.8)%float)
                else (s, qualityScore stats)
            | None => (s, 70%float)
            end).
    split.
    + destruct (reg !! s) as [stats|]; [|reflexivity].
      now destruct ((90 <? qualityScore stats)%float && (500 <? avgResponseTime stats)%float).
    + apply sort_In. apply in_map_iff. exists s. split; [reflexivity|exact Hin].
  - destruct (String.eqb_spec net "3g"); [contradiction|].
    destruct (String.eqb_spec net "2g"); [contradiction|]. exact Hin.
Qed.

(** X22: every source that [GET /api/sources/rank] answers is one of the
    candidates (the fields of the [sources] parameter, or the default sources
    without one) and passes the reliability filter; on every network other
    than ['3g'] and ['2g'] every such candidate is in the answer; and without
    a [network] parameter the answer is the plain ranking, for ['wifi']. *)
Theorem rankSourcesRoute_answers_reliable_candidates (defaults : list string)
    (reg : Registry) (sourcesParam network : option string) :
  let candidates := match given sourcesParam with
                    | Some p => Config.split p
                    | None => defaults
                    end in
  let considered := match candidates with [] => defaults | _ => candidates end in
  (forall s, In s (rankSourcesRoute defaults reg sourcesParam network).1 ->
             In s considered /\ reliable reg s = true)
  /\ (network <> Some "3g"%string -> network <> Some "2g"%string ->
      forall s, In s considered -> reliable reg s = true ->
                In s (rankSourcesRoute defaults reg sourcesParam network).1)
  /\ (network = None ->
      rankSourcesRoute defaults reg sourcesParam network
      = (rankSources defaults reg candidates, "wifi"%string)).
Proof.
  intros candidates considered. unfold rankSourcesRoute. fold candidates.
  split; [|split].
  - intros s Hin. simpl in Hin. apply (rankSources_In defaults reg candidates s).
    destruct (String.eqb _ ""); [exact Hin|].
    now apply adjustSourcesForNetwork_In_ranked in Hin.
  - intros H3 H2 s Hin Hrel. simpl.
    assert (Hranked : In s (rankSources defaults reg candidates))
      by (apply rankSources_In; auto).
    destruct (String.eqb _ ""); [exact Hranked|].
    apply ranked_In_adjustSourcesForNetwork; [| |exact Hranked].
    + destruct network as [n|]; [congruence|discriminate].
    + destruct network as [n|]; [congruence|discriminate].
  - intros ->. reflexivity.
Qed.

Lemma rankSourcesRoute_answers_reliable_candidates_witness :
  In "migu"%string
    (rankSourcesRoute builtin_DEFAULT_SOURCES newService
       (Some "kugou,migu"%string) (Some "4g"%string)).1.
Proof.
  refine (proj1 (proj2 (rankSourcesRoute_answers_reliable_candidates
                          builtin_DEFAULT_SOURCES newService
                          (Some "kugou,migu"%string) (Some "4g"%string))) _ _
            "migu"%string _ _).
  - discriminate.
  - discriminate.
  - simpl. auto.
  - reflexivity.
Defined.

End RouteFacts.

Section ClearRouteFacts.
Import CacheService CacheRuns Routes.
Context {Payload : Type}.
Implicit Types (cs : State Payload).

Lemma clearCacheRoute_all_state cs now query reply now2 reply2 :
  given (prefix query) = None ->
  given (songId query) = None ->
  given (source query) = None ->
  (clearCacheRoute cs now query reply now2 reply2).1.1
  = resetStats
      (deleteByPrefix (deleteByPrefix cs now "song:" reply).1 now2 "source:" reply2).1.
Proof.
  intros Hprefix Hsong Hsource. unfold clearCacheRoute.
  rewrite Hprefix, Hsong, Hsource.
  destruct (deleteByPrefix cs now "song:" reply) as [cs1 sent1]. simpl.
  now destruct (deleteByPrefix cs1 now2 "source:" reply2) as [cs2 sent2].
Qed.

(** X23: [DELETE /api/cache/clear] without [prefix], [songId] and [source]
    zeroes the counters and clears the keys under ["song:"] and ["source:"],
    which are not found in memory afterwards; every other entry stays as it
    is, among them all the entries under ["match:"]. *)
Theorem clearCacheRoute_clears_song_and_source_only cs now query reply now2 reply2 :
  given (prefix query) = None ->
  given (songId query) = None ->
  given (source query) = None ->
  now <= now2 ->
  stats (clearCacheRoute cs now query reply now2 reply2).1.1 = mkCounters 0 0 0 0
  /\ (forall key,
        Js.startsWith key "song:" = false ->
        Js.startsWith key "source:" = false ->
        LRUCache.find key (memoryCache (clearCacheRoute cs now query reply now2 reply2).1.1)
        = LRUCache.find key (memoryCache cs))
  /\ (forall rest,
        LRUCache.find ("match:" +:+ rest)
          (memoryCache (clearCacheRoute cs now query reply now2 reply2).1.1)
        = LRUCache.find ("match:" +:+ rest) (memoryCache cs))
  /\ (forall key later,
        Js.startsWith key "song:" = true \/ Js.startsWith key "source:" = true ->
        now2 <= later ->
        ~ localHit (clearCacheRoute cs now query reply now2 reply2).1.1 later key).
Proof.
  intros Hprefix Hsong Hsource Hle.
  rewrite (clearCacheRoute_all_state cs now query reply now2 reply2 Hprefix Hsong Hsource).
  assert (Hkeep : forall key,
            Js.startsWith key "song:" = false ->
            Js.startsWith key "source:" = false ->
            LRUCache.find key
              (memoryCache
                 (resetStats
                    (deleteByPrefix (deleteByPrefix cs now "song:" reply).1
                       now2 "source:" reply2).1))
            = LRUCache.find key (memoryCache cs)).
  { intros key Hs1 Hs2. simpl.
    rewrite deleteByPrefix_memory, purge_other by assumption.
    rewrite deleteByPrefix_memory. now apply purge_other. }
  split; [reflexivity|]. split; [exact Hkeep|]. split.
  - intros rest. apply Hkeep; reflexivity.
  - intros key later Hkey Hlater (e & Hfind & Hlive). simpl in Hfind.
    rewrite deleteByPrefix_memory in Hfind.
    destruct Hkey as [Hkey|Hkey].
    + destruct (purge_unchanged_or_gone "source:"
                  (LRUCache.keys now2 (memoryCache (deleteByPrefix cs now "song:" reply).1))
                  (memoryCache (deleteByPrefix cs now "song:" reply).1) key) as [Hsame|Hgone];
        [|congruence].
      rewrite Hsame, deleteByPrefix_memory in Hfind.
      apply purge_keys_stale in Hfind; [|assumption].
      assert (Hnow : now <= later) by lia.
      rewrite (isStale_later now later e Hnow Hfind) in Hlive. discriminate.
    + apply purge_keys_stale in Hfind; [|assumption].
      rewrite (isStale_later now2 later e Hlater Hfind) in Hlive. discriminate.
Qed.

End ClearRouteFacts.

Section ClearRouteWitnesses.
Import CacheService CacheRuns Routes.

Lemma clearCacheRoute_clears_song_and_source_only_witness :
  stats
    (clearCacheRoute
       (set (fun _ => None) (@newService string false) 1 "song:1" (Data "a"%string) None).1
       2 (mkClearQuery None None None) Rejected 3 Rejected).1.1
  = mkCounters 0 0 0 0.
Proof.
  refine (proj1 (clearCacheRoute_clears_song_and_source_only
    (set (fun _ => None) (@newService string false) 1 "song:1" (Data "a"%string) None).1
    2 (mkClearQuery None None None) Rejected 3 Rejected _ _ _ _)).
  - reflexivity.
  - reflexivity.
  - reflexivity.
  - lia.
Defined.

End ClearRouteWitnesses.

(** ** Loading saved statistics, and eviction *)

Section SavedStatsFacts.
Import Js Ranking.

Lemma loadStatsFromStorage_lookup saved (reg : Registry) source :
  List.NoDup (List.map fst saved) ->
  loadStatsFromStorage saved reg !! source
  = match List.find (fun kv => String.eqb (fst kv) source) saved with
    | Some kv => Some (snd kv)
    | None => reg !! source
    end.
Proof.
  unfold loadStatsFromStorage. revert reg.
  induction saved as [|[k stats] rest IH]; intros reg Hnodup; simpl; [reflexivity|].
  inversion Hnodup as [|? ? Hnot Hrest]; subst. rewrite (IH _ Hrest).
  destruct (String.eqb_spec k source) as [->|Hne].
  - destruct (List.find (fun kv => String.eqb (fst kv) source) rest) as [kv|] eqn:Hfind.
    + exfalso. apply Hnot. apply List.find_some in Hfind as [Hin Heq].
      apply String.eqb_eq in Heq. subst source. now apply in_map.
    + apply lookup_insert_eq.
  - destruct (List.find (fun kv => String.eqb (fst kv) source) rest); [reflexivity|].
    now apply lookup_insert_ne.
Qed.

(** X24: at initialisation, a saved entry replaces whatever the registry
    had for its source, the seeded entry included; a source of the table of
    default quality scores without a saved entry is zeroed with its score of
    the table; every other source keeps its entry. *)
Theorem initSourceStats_overlays_saved (saved : list (string * SourceStats))
    (reg : Registry) (source : string) :
  List.NoDup (List.map fst saved) ->
  initSourceStats saved reg !! source
  = match List.find (fun kv => String.eqb (fst kv) source) saved with
    | Some kv => Some (snd kv)
    | None =>
        match defaultQuality DEFAULT_QUALITY_SCORES source with
        | Some q => Some (zeroStats q)
        | None => reg !! source
        end
    end.
Proof.
  intros Hnodup. unfold initSourceStats.
  rewrite (loadStatsFromStorage_lookup saved _ source Hnodup).
  destruct (List.find (fun kv => String.eqb (fst kv) source) saved); [reflexivity|].
  apply seed_lookup, DEFAULT_QUALITY_SCORES_NoDup.
Qed.

Lemma initSourceStats_overlays_saved_witness :
  initSourceStats [("kugou"%string, mkStats 3 4 120 (Some 9) None 0.75 80)] ∅ !! "kugou"
  = Some (mkStats 3 4 120 (Some 9) None 0.75 80).
Proof.
  refine (initSourceStats_overlays_saved
            [("kugou"%string, mkStats 3 4 120 (Some 9) None 0.75 80)] ∅ "kugou" _).
  repeat constructor. simpl. tauto.
Defined.

End SavedStatsFacts.

Section EvictionFacts.
Import CacheService CacheRuns.
Context {Payload : Type}.
Variable JSON_stringify : Value Payload -> option string.
Implicit Types (cs : State Payload).



End EvictionFacts.

Section EvictionWitnesses.
Import CacheService CacheRuns.


End EvictionWitnesses.
